(** * rl_baselines/cma_es.py: CMA-ES population trainer

    A shallow embedding of [src/rl_baselines/cma_es.py].  Python objects that
    the file mutates in place (the policy, the search strategy, the vectorized
    environment, the callback's own data) are threaded as explicit state.  A
    Python call either returns or raises: that is the [result] type.  The two
    [while] loops of [CMAES.train] may run forever, so they take fuel and
    answer [None] when it runs out.

    What the file imports and does not define (torch, numpy, cma, the
    vectorized environment, pickle) enters as type classes; numpy's array
    primitives used by [train] are written out on lists. *)

From Stdlib Require Import ZArith Floats Ascii.
From stdpp Require Import base tactics option list strings gmap.

#[local] Set Warnings "-inexact-float".
#[local] Open Scope Z_scope.

(** ** Python results *)

Inductive exn : Set :=
| IndexError
| ValueError
| OverflowError
| ZeroDivisionError
| AttributeError
| TypeError
| FileNotFoundError
| NotImplementedError.

Inductive result (A : Type) : Type :=
| Ret (a : A)
| Raise (e : exn).
Arguments Ret {A} a.
Arguments Raise {A} e.

#[global] Instance result_ret : MRet result := @Ret.
#[global] Instance result_bind : MBind result := λ A B f m,
  match m with
  | Ret a => f a
  | Raise e => Raise e
  end.
#[global] Instance result_fmap : FMap result := λ A B f m,
  match m with
  | Ret a => Ret (f a)
  | Raise e => Raise e
  end.

(** A fuel-bounded loop: [None] is fuel exhausted, [Some r] is the Python
    outcome.  [then_loop m k] runs the loop [k] after the call [m] returned. *)
Definition then_loop {A B : Type} (m : result A) (k : A → option (result B))
  : option (result B) :=
  match m with
  | Ret a => k a
  | Raise e => Some (Raise e)
  end.

Definition after_loop {A B : Type} (m : option (result A)) (k : A → option (result B))
  : option (result B) :=
  match m with
  | None => None
  | Some r => then_loop r k
  end.

(** [l[k]] on a Python list or a numpy array, for a non-negative [k]. *)
Definition index {A : Type} (l : list A) (k : nat) : result A :=
  match l !! k with
  | Some x => Ret x
  | None => Raise IndexError
  end.

(** [for k in ks: s = body(k, s)] *)
Fixpoint for_range {S : Type} (ks : list nat) (body : nat → S → result S) (s : S)
  : result S :=
  match ks with
  | [] => Ret s
  | k :: ks' => s' ← body k s; for_range ks' body s'
  end.

(** ** Python numbers *)

Inductive pynum : Set :=
| PyInt (n : Z)
| PyFloat (x : float).

Inductive pyval : Set :=
| PyNum (x : pynum)
| PyBool (b : bool)
| PyStr (s : string).

(** [int(x)]: the identity on an int, truncation toward zero on a float. *)
Definition py_int (x : pynum) : result Z :=
  match x with
  | PyInt n => Ret n
  | PyFloat f =>
      match Prim2SF f with
      | S754_zero _ => Ret 0
      | S754_infinity _ => Raise OverflowError
      | S754_nan => Raise ValueError
      | S754_finite s m e =>
          let a := if 0 <=? e then Z.pos m * 2 ^ e else Z.pos m / 2 ^ (- e) in
          Ret (if s then - a else a)
      end
  end.

(** [a // b] on ints. *)
Definition py_floordiv (a b : Z) : result Z :=
  if b =? 0 then Raise ZeroDivisionError else Ret (a / b).

(** ** numpy on one-dimensional arrays *)

Class Scalar (R : Type) := {
  rzero : R;
  radd : R → R → R;
  ropp : R → R;
  rleb : R → R → bool
}.

Section Numpy.
Context {R : Type} {scalar : Scalar R}.

(** [np.zeros((n,))] *)
Definition np_zeros (n : Z) : result (list R) :=
  if n <? 0 then Raise ValueError else Ret (replicate (Z.to_nat n) rzero).

(** [np.full((n,), b)] *)
Definition np_full {A : Type} (n : Z) (b : A) : result (list A) :=
  if n <? 0 then Raise ValueError else Ret (replicate (Z.to_nat n) b).

(** [a.all()] *)
Definition np_all (a : list bool) : bool := forallb id a.

(** [~a] *)
Definition np_invert (a : list bool) : list bool := negb <$> a.

(** [np.bitwise_or(a, b)] on arrays of one length (the vectorized environment
    returns one flag per instance); other shapes are refused here. *)
Definition np_bitwise_or (a b : list bool) : result (list bool) :=
  if decide (length a = length b) then Ret (zip_with orb a b) else Raise ValueError.

(** [r[mask] += w[mask]]: a boolean mask must have the length of the array it
    indexes. *)
Definition np_masked_iadd (r : list R) (mask : list bool) (w : list R) : result (list R) :=
  if decide (length mask = length r ∧ length mask = length w)
  then Ret (zip_with (λ rk '(m, wk), if (m : bool) then radd rk wk else rk) r (zip mask w))
  else Raise IndexError.

(** [-r] *)
Definition np_neg (r : list R) : list R := ropp <$> r.

(** [np.argmax(a)]: scan from the left, move only to a strictly greater
    entry. *)
Fixpoint argmax_from (best : R) (ibest i : nat) (a : list R) : nat :=
  match a with
  | [] => ibest
  | x :: a' =>
      if negb (rleb x best) then argmax_from x i (S i) a'
      else argmax_from best ibest (S i) a'
  end.

Definition np_argmax (a : list R) : result nat :=
  match a with
  | [] => Raise ValueError
  | x :: a' => Ret (argmax_from x 0%nat 1%nat a')
  end.

End Numpy.

(** ** Collaborators

    The libraries the file drives.  Each method is a call that returns or
    raises; the object it mutates comes back as its new state. *)

(** [class Policy]: the interface of a policy object. *)
Module Policy.
Class t (P Obs Act R : Type) := {
  getAction : P → Obs → result Act;
  getParamSpace : P → nat;
  setParam : P → list R → result P
}.
End Policy.

(** A torch [nn.Module] as the policy uses it. *)
Class Network (Net Obs R : Type) := {
  (* [model(make_var(obs.reshape(-1)))] *)
  forward : Net → Obs → result (list R);
  (* [F.softmax(_, dim=-1)] *)
  softmax : list R → list R;
  (* the shapes of [model.parameters()] *)
  parameters : Net → list (list nat);
  (* [nn.utils.vector_to_parameters(vec, model.parameters())] *)
  vector_to_parameters : list R → Net → result Net
}.

(** The vectorized environment: [reset] and [step] over all instances. *)
Class VecEnv (Env Obs Act R : Type) := {
  env_reset : Env → result (Env * list Obs);
  (* [obs, reward, new_done, info = env.step(actions)]; [info] is never read *)
  env_step : Env → list (option Act) → result (Env * (list Obs * list R * list bool))
}.

(** [cma.CMAEvolutionStrategy] *)
Class Strategy (ES R : Type) := {
  (* [cma.CMAEvolutionStrategy(x0, sigma, {'popsize': n})] *)
  es_new : list pynum → pynum → Z → result ES;
  es_ask : ES → result (ES * list (list R));
  es_tell : ES → list (list R) → list R → result ES;
  (* [es.result.xbest] *)
  es_xbest : ES → option (list R)
}.

(** [pickle.dump] and [pickle.load]: either may raise. *)
Class Pickle (T Blob : Type) := {
  pickle_dumps : T → result Blob;
  pickle_loads : Blob → result T
}.

(** [open(path, mode)] as far as the operating system decides it: the file
    the path names when the program may open it in that mode, the exception
    otherwise (a directory that is missing, an empty path, no permission).
    Two paths may name one file. *)
Inductive mode : Set := rb | wb.

Class Files (File : Type) := {
  path_file : string → mode → result File
}.

(** ** [class PytorchPolicy(Policy)] *)

Inductive action (R : Type) : Type :=
| Discrete (i : nat)
| Continuous (v : list R).
Arguments Discrete {R} i.
Arguments Continuous {R} v.

Module PytorchPolicy.
Section Defs.
Context {Net Obs R : Type} {scalar : Scalar R} {network : Network Net Obs R}.

Record t : Type := Build {
  model : Net;
  param_len : nat;
  continuous_actions : bool
}.

(** [np.prod(x.shape)] *)
Definition np_prod (shape : list nat) : nat := foldr Nat.mul 1%nat shape.

(** [__init__(self, model, continuous_actions)] *)
Definition init (model : Net) (continuous_actions : bool) : t :=
  {| model := model;
     param_len := sum_list (np_prod <$> parameters model);
     continuous_actions := continuous_actions |}.

Definition getAction (self : t) (obs : Obs) : result (action R) :=
  if continuous_actions self then
    out ← forward (model self) obs;
    Ret (Continuous out)
  else
    out ← forward (model self) obs;
    i ← np_argmax (softmax out);
    Ret (Discrete i).

Definition getParamSpace (self : t) : nat := param_len self.

Definition setParam (self : t) (param : list R) : result t :=
  m ← vector_to_parameters param (model self);
  Ret {| model := m;
         param_len := param_len self;
         continuous_actions := continuous_actions self |}.

#[global] Instance policy : Policy.t t Obs (action R) R := {|
  Policy.getAction := getAction;
  Policy.getParamSpace := getParamSpace;
  Policy.setParam := setParam
|}.

End Defs.
Arguments t : clear implicits.
End PytorchPolicy.

(** ** [class CMAES] *)

Module CMAES.
Section Defs.
Context {P Obs Act R Env ES CB : Type}.
Context {scalar : Scalar R} {pol : Policy.t P Obs Act R}.
Context {venv : VecEnv Env Obs Act R} {strategy : Strategy ES R}.

(** The object's [__dict__]. *)
Record t : Type := Build {
  policy : P;
  n_population : Z;
  init_mu : pynum;
  init_sigma : pynum;
  continuous_actions : bool;
  es : ES;
  best_model : option (list R)
}.

(** The defaults of [__init__]'s keyword arguments. *)
Definition default_mu : pynum := PyInt 0.
Definition default_sigma : pynum := PyInt 1.
Definition default_continuous_actions : bool := false.

(** [__init__(self, n_population, policy, mu, sigma, continuous_actions)] *)
Definition init (n_population : Z) (policy : P) (mu sigma : pynum)
    (continuous_actions : bool) : result t :=
  es ← es_new (replicate (Policy.getParamSpace policy) mu) sigma n_population;
  Ret {| policy := policy;
         n_population := n_population;
         init_mu := mu;
         init_sigma := sigma;
         continuous_actions := continuous_actions;
         es := es;
         best_model := es_xbest es |}.

Definition getAction (self : t) (obs : Obs) : result Act :=
  Policy.getAction (policy self) obs.

(** [save(self, save_path)]: [fs] holds the content of every file there is.
    [open(save_path, "wb")] comes first and may raise, then [pickle.dump]
    may; when both return the file holds the dump.  What is left of the file
    when [save] raises is not described. *)
Definition save {File Blob : Type} `{Countable File} {files : Files File}
    {pickle : Pickle t Blob} (self : t) (save_path : string)
    (fs : gmap File Blob) : result (gmap File Blob) :=
  f ← path_file save_path wb;
  blob ← pickle_dumps self;
  Ret (<[f := blob]> fs).

(** *** The rollout loop of [train] *)

(** What the inner [while] loop carries from one step to the next:
    [self.policy], the environment, the callback's data and the locals
    [step], [obs], [r], [done]. *)
Record loop : Type := Loop {
  l_policy : P;
  l_env : Env;
  l_cb : CB;
  l_step : Z;
  l_obs : list Obs;
  l_r : list R;
  l_done : list bool
}.

(** The callback reads the loop's locals after a step, with that step's
    [actions], [reward] and [new_done], and updates its own data. *)
Definition callback_t : Type :=
  loop → list (option Act) → list R → list bool → result CB.

(** The body of [for k in range(self.n_population)]. *)
Definition act_for (population : list (list R)) (obs : list Obs) (done : list bool)
    (k : nat) (st : P * list (option Act)) : result (P * list (option Act)) :=
  d ← index done k;
  if negb d then
    o ← index obs k;
    param ← index population k;
    pol ← Policy.setParam st.1 param;
    a ← Policy.getAction pol o;
    Ret (pol, st.2 ++ [Some a])
  else
    Ret (st.1, st.2 ++ [None]).

(** [actions = []] and the [for] loop: the policy as the loop leaves it and
    the actions it assembled. *)
Definition select_actions (n : Z) (population : list (list R)) (s : loop)
  : result (P * list (option Act)) :=
  for_range (seq 0 (Z.to_nat n)) (act_for population (l_obs s) (l_done s))
    (l_policy s, []).

(** One pass through the body of [while (not done.all())]. *)
Definition rollout_step (n : Z) (population : list (list R))
    (callback : option callback_t) (s : loop) : result loop :=
  '(pol, actions) ← select_actions n population s;
  '(env, (obs, reward, new_done)) ← env_step (l_env s) actions;
  let step := l_step s + n in
  done ← np_bitwise_or (l_done s) new_done;
  r ← np_masked_iadd (l_r s) (np_invert done) reward;
  let s' := {| l_policy := pol; l_env := env; l_cb := l_cb s; l_step := step;
               l_obs := obs; l_r := r; l_done := done |} in
  match callback with
  | None => Ret s'
  | Some f =>
      cb ← f s' actions reward new_done;
      Ret {| l_policy := pol; l_env := env; l_cb := cb; l_step := step;
             l_obs := obs; l_r := r; l_done := done |}
  end.

(** [while (not done.all()): ...] *)
Fixpoint rollout (fuel : nat) (n : Z) (population : list (list R))
    (callback : option callback_t) (s : loop) : option (result loop) :=
  if np_all (l_done s) then Some (Ret s)
  else
    match fuel with
    | O => None
    | S fuel' =>
        then_loop (rollout_step n population callback s)
          (rollout fuel' n population callback)
    end.

(** *** [train] *)

(** What the outer [while] loop carries: [self], the environment, the
    callback's data and [step]. *)
Record train_state : Type := TrainState {
  ts_self : t;
  ts_env : Env;
  ts_cb : CB;
  ts_step : Z
}.

(** The head of the outer loop's body, up to the rollout: reset, zeroed
    rewards, a fresh population, cleared done-flags. *)
Definition sampling (ts : train_state) : result (ES * list (list R) * loop) :=
  '(env, obs) ← env_reset (ts_env ts);
  r ← np_zeros (n_population (ts_self ts));
  '(es1, population) ← es_ask (es (ts_self ts));
  done ← np_full (n_population (ts_self ts)) false;
  Ret (es1, population,
       {| l_policy := policy (ts_self ts); l_env := env; l_cb := ts_cb ts;
          l_step := ts_step ts; l_obs := obs; l_r := r; l_done := done |}).

(** The tail of the outer loop's body: [self.es.tell(population, -r)] and
    [self.best_model = self.es.result.xbest].  (The printed throughput line
    is not modelled.) *)
Definition scoring (self : t) (es1 : ES) (population : list (list R)) (s : loop)
  : result train_state :=
  es2 ← es_tell es1 population (np_neg (l_r s));
  Ret {| ts_self := {| policy := l_policy s;
                       n_population := n_population self;
                       init_mu := init_mu self;
                       init_sigma := init_sigma self;
                       continuous_actions := continuous_actions self;
                       es := es2;
                       best_model := es_xbest es2 |};
         ts_env := l_env s;
         ts_cb := l_cb s;
         ts_step := l_step s |}.

(** One pass through the body of [while(step < num_updates)]. *)
Definition generation (fuel : nat) (callback : option callback_t) (ts : train_state)
  : option (result train_state) :=
  then_loop (sampling ts) (λ '(es1, population, s0),
    after_loop (rollout fuel (n_population (ts_self ts)) population callback s0)
      (λ s, Some (scoring (ts_self ts) es1 population s))).

(** [while(step < num_updates): ...] *)
Fixpoint train_loop (fuel : nat) (callback : option callback_t) (num_updates : Z)
    (ts : train_state) : option (result train_state) :=
  if ts_step ts <? num_updates then
    match fuel with
    | O => None
    | S fuel' =>
        after_loop (generation fuel' callback ts)
          (train_loop fuel' callback num_updates)
    end
  else Some (Ret ts).

(** [train(self, env, callback, num_updates)]; [cb] is the callback's data
    when the call starts. *)
Definition train (fuel : nat) (self : t) (env : Env) (callback : option callback_t)
    (cb : CB) (num_updates : Z) : option (result train_state) :=
  train_loop fuel callback num_updates
    {| ts_self := self; ts_env := env; ts_cb := cb; ts_step := 0 |}.

End Defs.
Arguments t : clear implicits.
Arguments loop : clear implicits.
Arguments train_state : clear implicits.
Arguments callback_t : clear implicits.
End CMAES.

(** ** [load] *)

Section Load.
Context {P Obs Act R ES Blob : Type}.
Context {pol : Policy.t P Obs Act R} {strategy : Strategy ES R}.
Context {File : Type} `{Countable File} {files : Files File}.
Context {pickle : Pickle (CMAES.t P R ES) Blob}.

(** [model.__dict__ = class_dict]: every attribute of [model] is now the
    one of [class_dict]. *)
Definition set_dict (model class_dict : CMAES.t P R ES) : CMAES.t P R ES :=
  class_dict.

(** [load(save_path)]: [open(save_path, "rb")] raises where the system
    refuses the path and where the file it names does not exist. *)
Definition load (save_path : string) (fs : gmap File Blob)
  : result (CMAES.t P R ES) :=
  f ← path_file save_path rb;
  match fs !! f with
  | None => Raise FileNotFoundError
  | Some blob =>
      class_dict ← pickle_loads blob;
      model ← CMAES.init (CMAES.n_population class_dict) (CMAES.policy class_dict)
                 (CMAES.init_mu class_dict) (CMAES.init_sigma class_dict)
                 CMAES.default_continuous_actions;
      Ret (set_dict model class_dict)
  end.

End Load.

(** ** [customArguments] *)

Inductive argtype : Set := ArgInt | ArgFloat.

(** One [parser.add_argument(flag, help=..., type=..., default=...)]. *)
Record argument : Set := Argument {
  arg_flag : string;
  arg_help : string;
  arg_type : argtype;
  arg_default : pynum
}.

Definition add_argument (parser : list argument) (flag help : string)
    (type : argtype) (default : pynum) : list argument :=
  parser ++ [ {| arg_flag := flag; arg_help := help; arg_type := type;
                 arg_default := default |} ].

Definition customArguments (parser : list argument) : list argument :=
  let parser := add_argument parser "--num-population" "Number of population"
                  ArgInt (PyInt 20) in
  let parser := add_argument parser "--mu"
                  "inital location for gaussian sampling of network parameters"
                  ArgFloat (PyInt 0) in
  let parser := add_argument parser "--sigma"
                  "inital scale for gaussian sampling of network parameters"
                  ArgFloat (PyFloat 0.2) in
  parser.

(** The attribute an option is stored under: the flag without its leading
    dashes, inner dashes turned into underscores. *)
Fixpoint lstrip_dash (s : string) : string :=
  match s with
  | String c s' => if Ascii.eqb c "-"%char then lstrip_dash s' else s
  | EmptyString => s
  end.

Fixpoint dash_to_underscore (s : string) : string :=
  match s with
  | String c s' => String (if Ascii.eqb c "-"%char then "_"%char else c) (dash_to_underscore s')
  | EmptyString => s
  end.

Definition dest (a : argument) : string := dash_to_underscore (lstrip_dash (arg_flag a)).

(** The namespace when the command line names none of the parser's options:
    every attribute not yet in [args] gets its option's default. *)
Definition with_defaults (parser : list argument) (args : gmap string pyval)
  : gmap string pyval :=
  foldl (λ ns a, match ns !! dest a with
                 | Some _ => ns
                 | None => <[dest a := PyNum (arg_default a)]> ns
                 end) args parser.

(** ** [main] *)

Definition getattr (args : gmap string pyval) (name : string) : result pyval :=
  match args !! name with
  | Some v => Ret v
  | None => Raise AttributeError
  end.

Definition as_num (v : pyval) : result pynum :=
  match v with
  | PyNum x => Ret x
  | PyBool b => Ret (PyInt (Z.b2z b))
  | PyStr _ => Raise TypeError
  end.

Definition as_int (v : pyval) : result Z :=
  match v with
  | PyNum (PyInt n) => Ret n
  | PyBool b => Ret (Z.b2z b)
  | PyNum (PyFloat _) | PyStr _ => Raise TypeError
  end.

(** [if v:] *)
Definition truthy (v : pyval) : bool :=
  match v with
  | PyNum (PyInt n) => negb (n =? 0)
  | PyNum (PyFloat x) => negb (PrimFloat.eqb x 0%float)
  | PyBool b => b
  | PyStr s => negb (String.eqb s "")
  end.

(** [v != ""] *)
Definition not_empty_str (v : pyval) : bool :=
  match v with
  | PyStr s => negb (String.eqb s "")
  | _ => true
  end.

(** What [main] takes from the rest of the repository and its libraries:
    building the stacked vectorized environment from [args], the spaces of
    an environment, observation normalisation and the two torch modules. *)
Class World (Env Net : Type) := {
  make_vec_env : gmap string pyval → result Env;
  action_space_shape : Env → list nat;
  action_space_n : Env → nat;
  observation_space_shape : Env → list nat;
  CustomVecNormalize : Env → result Env;
  MLPPolicyPytorch : nat → list nat → nat → result Net;
  CNNPolicyPytorch : nat → result Net
}.

Section Main.
Context {Net Obs R Env ES CB : Type}.
Context {scalar : Scalar R} {network : Network Net Obs R}.
Context {venv : VecEnv Env Obs (action R) R}.
Context {strategy : Strategy ES R} {world : World Env Net}.

(** [main] up to the call of [model.train]: the environment, the trainer
    and the [num_updates] argument. *)
Definition main_setup (args : gmap string pyval)
  : result (Env * CMAES.t (PytorchPolicy.t Net) R ES * Z) :=
  num_population ← getattr args "num_population" ≫= as_int;
  envs ← make_vec_env args;
  flag ← getattr args "continuous_actions";
  let continuous_actions := truthy flag in
  let action_space :=
    if continuous_actions then PytorchPolicy.np_prod (action_space_shape envs)
    else action_space_n envs in
  srl_model ← getattr args "srl_model";
  '(envs, net) ←
    (if not_empty_str srl_model then
       envs ← CustomVecNormalize envs;
       net ← (MLPPolicyPytorch (PytorchPolicy.np_prod (observation_space_shape envs))
                [100%nat] action_space : result Net);
       Ret (envs, net)
     else
       net ← (CNNPolicyPytorch action_space : result Net);
       Ret (envs, net));
  let policy := PytorchPolicy.init net continuous_actions in
  mu ← getattr args "mu" ≫= as_num;
  sigma ← getattr args "sigma" ≫= as_num;
  model ← CMAES.init (Obs := Obs) num_population policy mu sigma continuous_actions;
  num_timesteps ← getattr args "num_timesteps" ≫= as_num;
  num_timesteps ← py_int num_timesteps;
  quotient ← py_floordiv num_timesteps num_population;
  Ret (envs, model, quotient * 2).

Definition main (fuel : nat) (args : gmap string pyval)
    (callback : option (CMAES.callback_t (PytorchPolicy.t Net) Obs (action R) R Env CB))
    (cb : CB)
  : option (result (CMAES.train_state (PytorchPolicy.t Net) R Env ES CB)) :=
  then_loop (main_setup args) (λ '(envs, model, num_updates),
    CMAES.train fuel model envs callback cb num_updates).

End Main.

(** ** [class MLPPolicyPytorch(nn.Module)] *)

From stdpp Require Import pretty.
#[local] Open Scope Z_scope.

(** torch's [nn.Linear] and [F.relu] as the module uses them. *)
Class TorchLinear (L R : Type) := {
  (* [nn.Linear(in_features, out_features)] *)
  linear_new : nat → nat → result L;
  in_features : L → nat;
  out_features : L → nat;
  (* [layer(x)] *)
  linear_apply : L → list R → result (list R);
  (* [F.relu(x)] *)
  relu : list R → list R
}.

(** [for x in xs: s = body(x, s)] *)
Fixpoint for_in {A S : Type} (xs : list A) (body : A → S → result S) (s : S)
  : result S :=
  match xs with
  | [] => Ret s
  | x :: xs' => s' ← body x s; for_in xs' body s'
  end.

Module MLPPolicyPytorch.
Section Defs.
Context {L R : Type} {torch : TorchLinear L R}.

(** The module's attributes: the names of the hidden layers, and the
    submodules under their names in the order they were registered. *)
Record t : Type := Build {
  fc_hidden_name : list string;
  modules : list (string * L)
}.

(** [self.<name> = layer] and [self.add_module(name, layer)]: a name already
    registered is rebound where it stands, a new one goes last. *)
Fixpoint set_module (name : string) (layer : L) (ms : list (string * L))
  : list (string * L) :=
  match ms with
  | [] => [(name, layer)]
  | (name', layer') :: ms' =>
      if String.eqb name name' then (name, layer) :: ms'
      else (name', layer') :: set_module name layer ms'
  end.

(** [getattr(self, name)] *)
Fixpoint get_module (name : string) (ms : list (string * L)) : result L :=
  match ms with
  | [] => Raise AttributeError
  | (name', layer) :: ms' =>
      if String.eqb name name' then Ret layer else get_module name ms'
  end.

(** ["fc_"+str(i)] *)
Definition fc_name (i : nat) : string := "fc_" +:+ pretty i.

(** The body of [for i in range(len(hidden_dims)-1)]. *)
Definition add_hidden (hidden_dims : list nat) (i : nat) (self : t) : result t :=
  a ← index hidden_dims i;
  b ← index hidden_dims (S i);
  layer ← linear_new a b;
  Ret {| fc_hidden_name := fc_hidden_name self ++ [fc_name i];
         modules := set_module (fc_name i) layer (modules self) |}.

(** [__init__(self, in_dim, hidden_dims, out_dim)] *)
Definition init (in_dim : nat) (hidden_dims : list nat) (out_dim : nat) : result t :=
  h0 ← index hidden_dims 0;
  fc_in ← linear_new in_dim h0;
  self ← for_range (seq 0 (length hidden_dims - 1)) (add_hidden hidden_dims)
           {| fc_hidden_name := []; modules := set_module "fc_in" fc_in [] |};
  h_last ← index hidden_dims (length hidden_dims - 1);
  fc_out ← linear_new h_last out_dim;
  Ret {| fc_hidden_name := fc_hidden_name self;
         modules := set_module "fc_out" fc_out (modules self) |}.

(** [forward(self, x)] *)
Definition forward (self : t) (x : list R) : result (list R) :=
  fc_in ← get_module "fc_in" (modules self);
  y ← linear_apply fc_in x;
  x ← for_in (fc_hidden_name self)
        (λ name x, layer ← get_module name (modules self);
                   y ← linear_apply layer x;
                   Ret (relu y))
        (relu y);
  fc_out ← get_module "fc_out" (modules self);
  linear_apply fc_out x.

(** The shapes of [self.parameters()]: for each submodule, in the order of
    registration, its weight of [out_features] rows and [in_features]
    columns and its bias of [out_features] entries. *)
Definition parameters (self : t) : list (list nat) :=
  mbind (M := list)
    (λ '(_, layer), [[out_features layer; in_features layer]; [out_features layer]])
    (modules self).

End Defs.
Arguments t : clear implicits.
End MLPPolicyPytorch.

(** ** Notions the statements use *)

Section Notions.
Context {P Obs Act R Env ES CB : Type}.
Context {scalar : Scalar R} {pol : Policy.t P Obs Act R}.
Context {venv : VecEnv Env Obs Act R} {strategy : Strategy ES R}.

(** [m] passes through the body of the rollout loop, one after the other. *)
Fixpoint steps (m : nat) (n : Z) (population : list (list R))
    (callback : option (CMAES.callback_t P Obs Act R Env CB))
    (s : CMAES.loop P Obs R Env CB) : result (CMAES.loop P Obs R Env CB) :=
  match m with
  | O => Ret s
  | S m' => s' ← CMAES.rollout_step n population callback s;
            steps m' n population callback s'
  end.

(** The episodes running in environment [e] all report done sooner or
    later: the flags [done], merged step after step with the flags the
    environment reports, become all true, whatever actions are submitted. *)
Inductive episodes_end (e : Env) (done : list bool) : Prop :=
| episodes_ended : np_all done = true → episodes_end e done
| episodes_go_on :
    (∀ actions e' obs reward new_done done',
        env_step e actions = Ret (e', (obs, reward, new_done)) →
        np_bitwise_or done new_done = Ret done' →
        episodes_end e' done') →
    episodes_end e done.

(** The greatest instance index below [n] whose done-flag is false. *)
Definition last_not_done (n : nat) (done : list bool) : option nat :=
  last (filter (λ k, done !! k = Some false) (seq 0 n)).

(** The fitness vector a generation hands to [tell]. *)
Definition generation_fitness (fuel : nat)
    (callback : option (CMAES.callback_t P Obs Act R Env CB))
    (ts : CMAES.train_state P R Env ES CB) : option (result (list R)) :=
  then_loop (CMAES.sampling ts) (λ '(es1, population, s0),
    after_loop
      (CMAES.rollout fuel (CMAES.n_population (CMAES.ts_self ts)) population callback s0)
      (λ s, Some (Ret (np_neg (CMAES.l_r s))))).

(** The same strategy reporting [xbest] as its best solution. *)
Definition with_xbest (xbest : ES → option (list R)) : Strategy ES R :=
  {| es_new := es_new; es_ask := es_ask; es_tell := es_tell; es_xbest := xbest |}.

(** The same trainer with [b] as its cached best parameters. *)
Definition with_best_model (b : option (list R)) (self : CMAES.t P R ES)
  : CMAES.t P R ES :=
  {| CMAES.policy := CMAES.policy self;
     CMAES.n_population := CMAES.n_population self;
     CMAES.init_mu := CMAES.init_mu self;
     CMAES.init_sigma := CMAES.init_sigma self;
     CMAES.continuous_actions := CMAES.continuous_actions self;
     CMAES.es := CMAES.es self;
     CMAES.best_model := b |}.

(** A train state with its cached best parameters blanked. *)
Definition forget_best (ts : CMAES.train_state P R Env ES CB)
  : CMAES.train_state P R Env ES CB :=
  {| CMAES.ts_self := with_best_model None (CMAES.ts_self ts);
     CMAES.ts_env := CMAES.ts_env ts;
     CMAES.ts_cb := CMAES.ts_cb ts;
     CMAES.ts_step := CMAES.ts_step ts |}.

(** What a run of [train] leaves behind, the cached best parameters apart. *)
Definition besides_best (o : option (result (CMAES.train_state P R Env ES CB)))
  : option (result (CMAES.train_state P R Env ES CB)) :=
  match o with
  | None => None
  | Some (Raise e) => Some (Raise e)
  | Some (Ret ts) => Some (Ret (forget_best ts))
  end.

(** The trainers a program gets through the class: built by the
    constructor, then trained any number of times by calls of [train] that
    returned. *)
Inductive trained : CMAES.t P R ES → Prop :=
| trained_init (n_population : Z) (policy : P) (mu sigma : pynum)
    (continuous_actions : bool) (self : CMAES.t P R ES) :
    CMAES.init (Obs := Obs) n_population policy mu sigma continuous_actions = Ret self →
    trained self
| trained_train (fuel : nat) (self : CMAES.t P R ES) (env : Env)
    (callback : option (CMAES.callback_t P Obs Act R Env CB)) (cb : CB)
    (num_updates : Z) (final : CMAES.train_state P R Env ES CB) :
    trained self →
    CMAES.train fuel self env callback cb num_updates = Some (Ret final) →
    trained (CMAES.ts_self final).

End Notions.

(** ** What the environment answered during a rollout *)

Section Traces.
Context {P Obs Act R Env CB : Type}.
Context {scalar : Scalar R} {pol : Policy.t P Obs Act R}.
Context {venv : VecEnv Env Obs Act R}.

(** The [reward] and [new_done] batches that [env.step] returned on each of
    [m] passes through the rollout loop's body, first pass first. *)
Fixpoint responses (m : nat) (n : Z) (population : list (list R))
    (callback : option (CMAES.callback_t P Obs Act R Env CB))
    (s : CMAES.loop P Obs R Env CB) : result (list (list R * list bool)) :=
  match m with
  | O => Ret []
  | S m' =>
      '(p, actions) ← CMAES.select_actions n population s;
      '(env, (obs, reward, new_done)) ← env_step (CMAES.l_env s) actions;
      s' ← CMAES.rollout_step n population callback s;
      rest ← responses m' n population callback s';
      Ret ((reward, new_done) :: rest)
  end.

(** Instance [k]'s rewards added to [acc] one after the other, from the
    first answer up to, and without, the one on which [k] reports done. *)
Fixpoint return_until_done (k : nat) (acc : R) (answers : list (list R * list bool)) : R :=
  match answers with
  | [] => acc
  | (reward, new_done) :: answers' =>
      match new_done !! k, reward !! k with
      | Some false, Some w => return_until_done k (radd acc w) answers'
      | _, _ => acc
      end
  end.

End Traces.

(** ** The size of a stack of dense layers *)

(** The weights and biases of dense layers chained through the widths
    [dims]: a layer from width [a] to width [b] has [b * a] weights and [b]
    biases. *)
Fixpoint dense_count (dims : list nat) : nat :=
  match dims with
  | a :: (b :: _) as rest => (b * a + b + dense_count rest)%nat
  | _ => 0%nat
  end.

(** ** A small concrete world

    Integer rewards, a two-weight linear network, two environment instances
    whose first episodes last one and two steps, and a strategy that proposes
    two candidates per generation.  The statements below are run on it. *)

Module Bench.

#[global] Instance Z_scalar : Scalar Z := {|
  rzero := 0;
  radd := Z.add;
  ropp := Z.opp;
  rleb := Z.leb
|}.

(** Weights [w]; the output on observation [o] is [w * o] per weight.  A
    vector with fewer entries than there are weights is refused. *)
#[global] Instance linear_net : Network (list Z) Z Z := {|
  forward := λ net obs, Ret ((λ w, w * obs) <$> net);
  softmax := λ out, out;
  parameters := λ net, [[length net]];
  vector_to_parameters := λ vec net,
    if (length vec <? length net)%nat then Raise ValueError
    else Ret (take (length net) vec)
|}.

(** The state is the number of steps each instance's running episode still
    has; an instance whose episode ends starts one of three steps.  The
    reward of a step is ten times the steps that were left. *)
#[global] Instance countdown : VecEnv (list nat) Z (action Z) Z := {|
  env_reset := λ _, Ret ([1; 2]%nat, [1; 2]);
  env_step := λ left _,
    let left' := (λ n, if (n <=? 1)%nat then 3%nat else pred n) <$> left in
    Ret (left',
         (Z.of_nat <$> left', (λ n, 10 * Z.of_nat n) <$> left,
          (λ n, (n <=? 1)%nat) <$> left))
|}.

(** The state counts the generations told and keeps the first candidate of
    the last one as its best. *)
#[global] Instance two_candidates : Strategy (nat * option (list Z)) Z := {|
  es_new := λ _ _ _, Ret (0%nat, None);
  es_ask := λ s, Ret (s, [[Z.of_nat s.1; 1]; [Z.of_nat s.1; 2]]);
  es_tell := λ s population _, Ret (S s.1, head population);
  es_xbest := λ s, s.2
|}.

Definition trainer_t : Type := CMAES.t (PytorchPolicy.t (list Z)) Z (nat * option (list Z)).

#[global] Instance identity_pickle : Pickle trainer_t trainer_t := {|
  pickle_dumps := λ d, Ret d;
  pickle_loads := λ b, Ret b
|}.

(** Files known by their name in the working directory: a leading [./]
    changes nothing, and neither the empty path nor a path into the
    directory [/nonexistent_dir], which is not there, can be opened. *)
#[global] Instance working_directory : Files string := {|
  path_file := λ path _,
    if String.eqb path "" then Raise FileNotFoundError
    else if String.prefix "/nonexistent_dir/" path then Raise FileNotFoundError
    else if String.prefix "./" path
         then Ret (String.substring 2 (String.length path - 2) path)
         else Ret path
|}.

#[global] Instance small_world : World (list nat) (list Z) := {|
  make_vec_env := λ _, Ret [1; 2]%nat;
  action_space_shape := λ _, [2%nat];
  action_space_n := λ _, 2%nat;
  observation_space_shape := λ _, [1%nat];
  CustomVecNormalize := λ e, Ret e;
  MLPPolicyPytorch := λ _ _ out_dim, Ret (replicate out_dim 0);
  CNNPolicyPytorch := λ out_dim, Ret (replicate out_dim 0)
|}.

(** A policy in discrete-action mode and the trainer built on it. *)
Definition policy0 : PytorchPolicy.t (list Z) := PytorchPolicy.init [0; 0] false.

Definition trainer0 : trainer_t :=
  {| CMAES.policy := policy0; CMAES.n_population := 2;
     CMAES.init_mu := PyInt 0; CMAES.init_sigma := PyFloat 0.2;
     CMAES.continuous_actions := false;
     CMAES.es := (0%nat, None); CMAES.best_model := None |}.

(** A callback that counts its calls. *)
Definition count_calls
  : CMAES.callback_t (PytorchPolicy.t (list Z)) Z (action Z) Z (list nat) nat :=
  λ s _ _ _, Ret (S (CMAES.l_cb s)).

(** The loop state at the start of the first generation's rollout. *)
Definition loop0 : CMAES.loop (PytorchPolicy.t (list Z)) Z Z (list nat) nat :=
  {| CMAES.l_policy := policy0; CMAES.l_env := [1; 2]%nat; CMAES.l_cb := 0%nat;
     CMAES.l_step := 0; CMAES.l_obs := [1; 2]; CMAES.l_r := [0; 0];
     CMAES.l_done := [false; false] |}.

Definition population0 : list (list Z) := [[0; 1]; [0; 2]].

(** The loop state after the first pass: instance 0 reported done. *)
Definition loop1 : CMAES.loop (PytorchPolicy.t (list Z)) Z Z (list nat) nat :=
  {| CMAES.l_policy := {| PytorchPolicy.model := [0; 2]; PytorchPolicy.param_len := 2;
                          PytorchPolicy.continuous_actions := false |};
     CMAES.l_env := [3; 1]%nat; CMAES.l_cb := 1%nat;
     CMAES.l_step := 2; CMAES.l_obs := [3; 1]; CMAES.l_r := [0; 20];
     CMAES.l_done := [true; false] |}.

(** [train]'s state when it starts on [trainer0], and when its first
    generation is over. *)
Definition ts0
  : CMAES.train_state (PytorchPolicy.t (list Z)) Z (list nat) (nat * option (list Z)) nat :=
  {| CMAES.ts_self := trainer0; CMAES.ts_env := [1; 2]%nat; CMAES.ts_cb := 0%nat;
     CMAES.ts_step := 0 |}.

Definition ts1
  : CMAES.train_state (PytorchPolicy.t (list Z)) Z (list nat) (nat * option (list Z)) nat :=
  {| CMAES.ts_self :=
       {| CMAES.policy := {| PytorchPolicy.model := [0; 2]; PytorchPolicy.param_len := 2;
                             PytorchPolicy.continuous_actions := false |};
          CMAES.n_population := 2;
          CMAES.init_mu := PyInt 0; CMAES.init_sigma := PyFloat 0.2;
          CMAES.continuous_actions := false;
          CMAES.es := (1%nat, Some [0; 1]); CMAES.best_model := Some [0; 1] |};
     CMAES.ts_env := [2; 3]%nat; CMAES.ts_cb := 2%nat; CMAES.ts_step := 4 |}.

(** A discrete-action policy whose output on observation 1 has its greatest
    entry twice, at indices 1 and 2. *)
Definition tie_policy : PytorchPolicy.t (list Z) := PytorchPolicy.init [3; 5; 5] false.

(** A trainer whose policy has three weights while the strategy proposes
    candidates of two entries. *)
Definition mismatched_trainer : trainer_t :=
  {| CMAES.policy := tie_policy; CMAES.n_population := 2;
     CMAES.init_mu := PyInt 0; CMAES.init_sigma := PyFloat 0.2;
     CMAES.continuous_actions := false;
     CMAES.es := (0%nat, None); CMAES.best_model := None |}.

Definition mismatched_ts
  : CMAES.train_state (PytorchPolicy.t (list Z)) Z (list nat) (nat * option (list Z)) nat :=
  {| CMAES.ts_self := mismatched_trainer; CMAES.ts_env := [1; 2]%nat; CMAES.ts_cb := 0%nat;
     CMAES.ts_step := 0 |}.

Definition mismatched_loop0 : CMAES.loop (PytorchPolicy.t (list Z)) Z Z (list nat) nat :=
  {| CMAES.l_policy := tie_policy; CMAES.l_env := [1; 2]%nat; CMAES.l_cb := 0%nat;
     CMAES.l_step := 0; CMAES.l_obs := [1; 2]; CMAES.l_r := [0; 0];
     CMAES.l_done := [false; false] |}.

(** The command-line namespace of the orchestrator, before this file's own
    options are given their defaults. *)
Definition args0 : gmap string pyval :=
  <["num_timesteps" := PyNum (PyInt 100)]>
  (<["continuous_actions" := PyBool false]>
  (<["srl_model" := PyStr "ground_truth"]> ∅)).

(** The trainer [main] builds from [args0] and this file's defaults. *)
Definition main_trainer : trainer_t :=
  {| CMAES.policy := PytorchPolicy.init [0; 0] false; CMAES.n_population := 20;
     CMAES.init_mu := PyInt 0; CMAES.init_sigma := PyFloat 0.2;
     CMAES.continuous_actions := false;
     CMAES.es := (0%nat, None); CMAES.best_model := None |}.

(** The loop state when the first generation's rollout is over. *)
Definition loop2 : CMAES.loop (PytorchPolicy.t (list Z)) Z Z (list nat) nat :=
  {| CMAES.l_policy := {| PytorchPolicy.model := [0; 2]; PytorchPolicy.param_len := 2;
                          PytorchPolicy.continuous_actions := false |};
     CMAES.l_env := [2; 3]%nat; CMAES.l_cb := 2%nat;
     CMAES.l_step := 4; CMAES.l_obs := [2; 3]; CMAES.l_r := [0; 20];
     CMAES.l_done := [true; true] |}.

(** A trainer with no candidate at all. *)
Definition empty_trainer : trainer_t :=
  {| CMAES.policy := policy0; CMAES.n_population := 0;
     CMAES.init_mu := PyInt 0; CMAES.init_sigma := PyFloat 0.2;
     CMAES.continuous_actions := false;
     CMAES.es := (0%nat, None); CMAES.best_model := None |}.

(** A linear layer known by its two widths: fed a vector of its input
    width it answers the sum of the entries at each of its outputs, and it
    refuses any other vector. *)
#[global] Instance summing_linear : TorchLinear (nat * nat) Z := {|
  linear_new := λ i o, Ret (i, o);
  in_features := fst;
  out_features := snd;
  linear_apply := λ layer x,
    if decide (length x = layer.1) then Ret (replicate layer.2 (foldr Z.add 0 x))
    else Raise ValueError;
  relu := fmap (Z.max 0)
|}.

End Bench.

(** * Facts *)

(** ** Python results and numpy arrays *)

Lemma bind_Ret_inv {A B : Type} (m : result A) (f : A → result B) (b : B) :
  m ≫= f = Ret b → ∃ a, m = Ret a ∧ f a = Ret b.
Proof. destruct m as [a|e]; simpl; [eauto | discriminate]. Qed.

Lemma index_Ret {A : Type} (l : list A) (k : nat) (x : A) :
  index l k = Ret x ↔ l !! k = Some x.
Proof.
  unfold index. destruct (l !! k); split; intros E; congruence.
Qed.

(** Splits a hypothesis [x ← m; k = Ret b] into [m = Ret a] and [k a = Ret b]. *)
Tactic Notation "bind_inv" hyp(H) "as" simple_intropattern(a) ident(E) :=
  apply bind_Ret_inv in H; destruct H as (a & E & H).

Section NumpyFacts.
Context {R : Type} {scalar : Scalar R}.

Lemma np_all_true (a : list bool) :
  np_all a = true ↔ ∀ k d, a !! k = Some d → d = true.
Proof.
  unfold np_all. induction a as [|x a IH]; simpl.
  - split; [intros _ k d E; rewrite lookup_nil in E; discriminate | done].
  - rewrite andb_true_iff, IH. split.
    + intros [Hx Ha] [|k] d E; simpl in E; [by simplify_eq | eauto].
    + intros Hall. split; [exact (Hall 0%nat x eq_refl) |].
      intros k d E. exact (Hall (S k) d E).
Qed.

Lemma np_all_replicate_false (n : nat) :
  (0 < n)%nat → np_all (replicate n false) = false.
Proof. destruct n; [lia | done]. Qed.

Lemma np_full_Ret {A : Type} (n : Z) (b : A) (a : list A) :
  np_full n b = Ret a → 0 ≤ n ∧ a = replicate (Z.to_nat n) b.
Proof.
  unfold np_full. destruct (Z.ltb_spec n 0); intros E; [discriminate |].
  split; [lia | congruence].
Qed.

Lemma np_zeros_Ret (n : Z) (a : list R) :
  np_zeros n = Ret a → 0 ≤ n ∧ a = replicate (Z.to_nat n) rzero.
Proof.
  unfold np_zeros. destruct (Z.ltb_spec n 0); intros E; [discriminate |].
  split; [lia | congruence].
Qed.

Lemma np_bitwise_or_Ret (a b c : list bool) :
  np_bitwise_or a b = Ret c →
  length a = length b ∧ length c = length a ∧
  ∀ k, c !! k = (x ← a !! k; y ← b !! k; Some (x || y)).
Proof.
  unfold np_bitwise_or. case_decide as Hlen; intros E; [| discriminate].
  injection E as <-. split; [done |]. split.
  - rewrite length_zip_with. lia.
  - intros k. apply lookup_zip_with.
Qed.

Lemma np_masked_iadd_Ret (r : list R) (mask : list bool) (w r' : list R) :
  np_masked_iadd r mask w = Ret r' →
  length mask = length r ∧ length w = length r ∧ length r' = length r ∧
  ∀ k, r' !! k =
       (rk ← r !! k; m ← mask !! k; wk ← w !! k;
        Some (if (m : bool) then radd rk wk else rk)).
Proof.
  unfold np_masked_iadd. case_decide as Hlen; intros E; [| discriminate].
  destruct Hlen as [Hr Hw]. injection E as <-.
  split; [done |]. split; [lia |]. split.
  - rewrite length_zip_with, length_zip. lia.
  - intros k. rewrite lookup_zip_with, lookup_zip_with.
    destruct (r !! k) as [rk|]; simpl; [| done].
    destruct (mask !! k) as [m|]; simpl; [| done].
    destruct (w !! k) as [wk|]; simpl; done.
Qed.

Lemma np_neg_lookup (r : list R) (k : nat) : np_neg r !! k = ropp <$> r !! k.
Proof. unfold np_neg. apply list_lookup_fmap. Qed.

Lemma np_neg_length (r : list R) : length (np_neg r) = length r.
Proof. unfold np_neg. apply length_fmap. Qed.

End NumpyFacts.

(** ** The rollout loop *)

Section RolloutFacts.
Context {P Obs Act R Env ES CB : Type}.
Context {scalar : Scalar R} {pol : Policy.t P Obs Act R}.
Context {venv : VecEnv Env Obs Act R} {strategy : Strategy ES R}.

Implicit Types (s : CMAES.loop P Obs R Env CB).
Implicit Types (callback : option (CMAES.callback_t P Obs Act R Env CB)).
Implicit Types (population : list (list R)) (actions : list (option Act)).

(** One pass through the [for] loop's body, by the instance's done-flag. *)
Lemma act_for_Ret population (obs : list Obs) (done : list bool) (k : nat)
    (p p' : P) actions actions' :
  CMAES.act_for population obs done k (p, actions) = Ret (p', actions') →
  (done !! k = Some true ∧ p' = p ∧ actions' = actions ++ [None]) ∨
  (done !! k = Some false ∧
   ∃ o param a, obs !! k = Some o ∧ population !! k = Some param ∧
     Policy.setParam p param = Ret p' ∧ Policy.getAction p' o = Ret a ∧
     actions' = actions ++ [Some a]).
Proof.
  unfold CMAES.act_for. simpl. intros E.
  bind_inv E as d Ed. apply index_Ret in Ed. destruct d; simpl in E.
  - left. by simplify_eq.
  - right. split; [done |].
    bind_inv E as o Eo. bind_inv E as param Eparam. bind_inv E as p1 Ep1. bind_inv E as a Ea.
    apply index_Ret in Eo, Eparam. simplify_eq. eauto 10.
Qed.

(** The actions the [for] loop appends, one per index it visits: the no-op
    for an instance that is done, the policy's action otherwise. *)
Lemma for_range_actions population (obs : list Obs) (done : list bool) (ks : list nat) :
  ∀ (p p' : P) actions actions',
    for_range ks (CMAES.act_for population obs done) (p, actions) = Ret (p', actions') →
    ∃ new, actions' = actions ++ new ∧ length new = length ks ∧
      ∀ j k, ks !! j = Some k →
        (done !! k = Some true ∧ new !! j = Some None) ∨
        (done !! k = Some false ∧ is_Some (population !! k) ∧
         ∃ a, new !! j = Some (Some a)).
Proof.
  induction ks as [|k ks IH]; intros p p' actions actions' E; simpl in E.
  - injection E as <- <-. exists []. rewrite app_nil_r. split; [done |].
    split; [done |]. intros j k Hj. rewrite lookup_nil in Hj. discriminate.
  - bind_inv E as [p1 actions1] Est.
    apply IH in E as (new & -> & Hlen & Hnew).
    apply act_for_Ret in Est.
    assert (∃ x, actions1 = actions ++ [x] ∧
              ((done !! k = Some true ∧ x = None) ∨
               (done !! k = Some false ∧ is_Some (population !! k) ∧
                ∃ a, x = Some a))) as (x & -> & Hx).
    { destruct Est as [(Hd & _ & ->) | (Hd & o & param & a & _ & Hparam & _ & _ & ->)];
        eauto 10. }
    exists (x :: new). rewrite <- app_assoc. split; [done |].
    split; [simpl; lia |].
    intros [|j] k' Hj; simpl in Hj.
    + simplify_eq. simpl. destruct Hx as [[Hd ->] | (Hd & Hparam & a & ->)]; eauto 10.
    + simpl. eauto.
Qed.

(** The policy the [for] loop leaves: untouched when every visited instance
    is done, else what [setParam] made of it with the candidate of the last
    visited instance that is not done. *)
Lemma for_range_policy population (obs : list Obs) (done : list bool) (ks : list nat) :
  ∀ (p p' : P) actions actions',
    for_range ks (CMAES.act_for population obs done) (p, actions) = Ret (p', actions') →
    match last (filter (λ k, done !! k = Some false) ks) with
    | None => p' = p
    | Some k => ∃ p0 param, population !! k = Some param ∧
                            Policy.setParam p0 param = Ret p'
    end.
Proof.
  induction ks as [|k ks IH]; intros p p' actions actions' E; simpl in E.
  - by injection E as <- <-.
  - bind_inv E as [p1 actions1] Est.
    apply IH in E. apply act_for_Ret in Est.
    rewrite filter_cons.
    destruct Est as [(Hd & -> & _) | (Hd & o & param & a & _ & Hparam & Hset & _ & _)].
    + rewrite decide_False by congruence. exact E.
    + rewrite decide_True by done. rewrite last_cons.
      destruct (last (filter _ ks)) as [k2|]; [exact E |].
      subst p1. eauto.
Qed.

Lemma select_actions_Ret (n : Z) population s (p' : P) actions :
  CMAES.select_actions n population s = Ret (p', actions) →
  length actions = Z.to_nat n ∧
  (∀ k, (k < Z.to_nat n)%nat →
     (CMAES.l_done s !! k = Some true ∧ actions !! k = Some None) ∨
     (CMAES.l_done s !! k = Some false ∧ is_Some (population !! k) ∧
      ∃ a, actions !! k = Some (Some a))) ∧
  match last_not_done (Z.to_nat n) (CMAES.l_done s) with
  | None => p' = CMAES.l_policy s
  | Some k => ∃ p0 param, population !! k = Some param ∧
                          Policy.setParam p0 param = Ret p'
  end.
Proof.
  unfold CMAES.select_actions, last_not_done. intros E.
  split_and!.
  - apply for_range_actions in E as (new & -> & Hlen & _).
    simpl. by rewrite Hlen, length_seq.
  - apply for_range_actions in E as (new & -> & _ & Hnew).
    intros k Hk. simpl. apply (Hnew k k). by apply lookup_seq_lt.
  - by apply for_range_policy in E.
Qed.

(** The pieces of one pass through the rollout loop's body. *)
Lemma rollout_step_inv (n : Z) population callback s s' :
  CMAES.rollout_step n population callback s = Ret s' →
  ∃ p actions env obs reward new_done,
    CMAES.select_actions n population s = Ret (p, actions) ∧
    env_step (CMAES.l_env s) actions = Ret (env, (obs, reward, new_done)) ∧
    np_bitwise_or (CMAES.l_done s) new_done = Ret (CMAES.l_done s') ∧
    np_masked_iadd (CMAES.l_r s) (np_invert (CMAES.l_done s')) reward
      = Ret (CMAES.l_r s') ∧
    CMAES.l_policy s' = p ∧ CMAES.l_env s' = env ∧ CMAES.l_obs s' = obs ∧
    CMAES.l_step s' = CMAES.l_step s + n.
Proof.
  unfold CMAES.rollout_step. intros E.
  bind_inv E as [p actions] Epa.
  bind_inv E as [env [[obs reward] new_done]] Eer.
  bind_inv E as dn Edone. bind_inv E as r Er.
  exists p, actions, env, obs, reward, new_done.
  destruct callback as [f|].
  - bind_inv E as cb Ecb. injection E as <-. simpl. by split_and!.
  - injection E as <-. simpl. by split_and!.
Qed.

End RolloutFacts.

Section RewardMask.
Context {P Obs Act R Env ES CB : Type}.
Context {scalar : Scalar R} {pol : Policy.t P Obs Act R}.
Context {venv : VecEnv Env Obs Act R}.

Implicit Types (s : CMAES.loop P Obs R Env CB).
Implicit Types (callback : option (CMAES.callback_t P Obs Act R Env CB)).
Implicit Types (population : list (list R)) (actions : list (option Act)).

(** The merge of the done-flags and the masked sum, entry by entry. *)
Lemma merge_and_mask (done new_done done' : list bool) (r reward r' : list R) :
  np_bitwise_or done new_done = Ret done' →
  np_masked_iadd r (np_invert done') reward = Ret r' →
  ∀ k d rk, done !! k = Some d → r !! k = Some rk →
    ∃ nd w, new_done !! k = Some nd ∧ reward !! k = Some w ∧
      done' !! k = Some (d || nd) ∧
      r' !! k = Some (if d || nd then rk else radd rk w).
Proof.
  intros Hor Hadd k d rk Hd Hr.
  apply np_bitwise_or_Ret in Hor as (Hlen & Hlen' & Hor).
  apply np_masked_iadd_Ret in Hadd as (_ & Hlenw & _ & Hadd).
  destruct (lookup_lt_is_Some_2 new_done k) as [nd Hnd].
  { rewrite <- Hlen. by eapply lookup_lt_Some. }
  destruct (lookup_lt_is_Some_2 reward k) as [w Hw].
  { rewrite Hlenw. by eapply lookup_lt_Some. }
  exists nd, w. split; [done |]. split; [done |].
  assert (done' !! k = Some (d || nd)) as Hd'.
  { rewrite Hor, Hd, Hnd. done. }
  split; [done |].
  rewrite Hadd, Hr. unfold np_invert. rewrite list_lookup_fmap, Hd', Hw. simpl.
  by destruct (d || nd).
Qed.

(** Once an instance is done, no later pass changes its flag or its
    accumulated reward, and every later pass submits the no-op for it. *)
Lemma done_is_frozen (n : Z) population callback (k : nat) (rk : R) (m : nat) :
  ∀ s s', steps m n population callback s = Ret s' →
    CMAES.l_done s !! k = Some true → CMAES.l_r s !! k = Some rk →
    CMAES.l_done s' !! k = Some true ∧ CMAES.l_r s' !! k = Some rk.
Proof.
  induction m as [|m IH]; intros s s' E Hd Hr; simpl in E.
  - by injection E as <-.
  - bind_inv E as s1 E1.
    apply rollout_step_inv in E1
      as (p & actions & env & obs & reward & new_done & _ & _ & Hor & Hadd & _).
    destruct (merge_and_mask _ _ _ _ _ _ Hor Hadd k true rk Hd Hr)
      as (nd & w & _ & _ & Hd1 & Hr1).
    simpl in Hd1, Hr1. eauto.
Qed.

(** C1. In one pass through the rollout loop's body, instance [k]'s reward of
    the step is added to its accumulator exactly when its done-flag is still
    false after the step's new flags are merged in.  So an instance adds no
    reward on the step on which it reports done, and from then on, through
    any number of further passes, its accumulator and its flag stay as they
    are and the action submitted for it is the no-op [None]. *)
Theorem reward_added_iff_not_done_after_merge (n : Z) population callback s s' :
  CMAES.rollout_step n population callback s = Ret s' →
  ∃ p actions env obs reward new_done,
    CMAES.select_actions n population s = Ret (p, actions) ∧
    env_step (CMAES.l_env s) actions = Ret (env, (obs, reward, new_done)) ∧
    ∀ k d rk, CMAES.l_done s !! k = Some d → CMAES.l_r s !! k = Some rk →
      ∃ nd w, new_done !! k = Some nd ∧ reward !! k = Some w ∧
        CMAES.l_done s' !! k = Some (d || nd) ∧
        CMAES.l_r s' !! k = Some (if d || nd then rk else radd rk w) ∧
        (d = true → (k < Z.to_nat n)%nat → actions !! k = Some None) ∧
        (d || nd = true →
         ∀ m s'', steps m n population callback s' = Ret s'' →
           CMAES.l_r s'' !! k = Some rk ∧
           CMAES.l_done s'' !! k = Some true ∧
           ∀ p'' actions'', (k < Z.to_nat n)%nat →
             CMAES.select_actions n population s'' = Ret (p'', actions'') →
             actions'' !! k = Some None).
Proof.
  intros E.
  destruct (rollout_step_inv _ _ _ _ _ E)
    as (p & actions & env & obs & reward & new_done & Hsel & Hstep & Hor & Hadd & _).
  exists p, actions, env, obs, reward, new_done.
  split; [done |]. split; [done |].
  intros k d rk Hd Hr.
  destruct (merge_and_mask _ _ _ _ _ _ Hor Hadd k d rk Hd Hr)
    as (nd & w & Hnd & Hw & Hd' & Hr').
  exists nd, w. split_and!; try done.
  - intros -> Hk.
    apply select_actions_Ret in Hsel as (_ & Hact & _).
    destruct (Hact k Hk) as [[_ Ha] | [Hf _]]; [done | congruence].
  - intros Hdone m s'' Hsteps.
    rewrite Hdone in Hd', Hr'.
    destruct (done_is_frozen _ _ _ k rk m _ _ Hsteps Hd' Hr') as [Hd'' Hr''].
    split_and!; try done.
    intros p'' actions'' Hk Hsel''.
    apply select_actions_Ret in Hsel'' as (_ & Hact & _).
    destruct (Hact k Hk) as [[_ Ha] | [Hf _]]; [done | congruence].
Qed.

End RewardMask.

(** ** The two loops of [train] *)

Section TrainFacts.
Context {P Obs Act R Env ES CB : Type}.
Context {scalar : Scalar R} {pol : Policy.t P Obs Act R}.
Context {venv : VecEnv Env Obs Act R} {strategy : Strategy ES R}.

Implicit Types (s : CMAES.loop P Obs R Env CB).
Implicit Types (ts : CMAES.train_state P R Env ES CB).
Implicit Types (callback : option (CMAES.callback_t P Obs Act R Env CB)).
Implicit Types (population : list (list R)).

(** More fuel never changes an answer. *)
Lemma rollout_fuel_mono (n : Z) population callback (fuel : nat) :
  ∀ fuel' s o, (fuel ≤ fuel')%nat →
    CMAES.rollout fuel n population callback s = Some o →
    CMAES.rollout fuel' n population callback s = Some o.
Proof.
  induction fuel as [|fuel IH]; intros fuel' s o Hle E.
  - destruct fuel'; simpl in *; destruct (np_all (CMAES.l_done s)); congruence.
  - destruct fuel' as [|fuel']; [lia |]. simpl in *.
    destruct (np_all (CMAES.l_done s)); [done |].
    destruct (CMAES.rollout_step n population callback s) as [s1|e]; simpl in *;
      [| done].
    apply IH; [lia | done].
Qed.

Lemma generation_fuel_mono callback (fuel fuel' : nat) ts o :
  (fuel ≤ fuel')%nat →
  CMAES.generation fuel callback ts = Some o →
  CMAES.generation fuel' callback ts = Some o.
Proof.
  unfold CMAES.generation. intros Hle E.
  destruct (CMAES.sampling ts) as [[[es1 population] s0]|e]; simpl in *; [| done].
  destruct (CMAES.rollout fuel _ population callback s0) as [o1|] eqn:E1;
    simpl in E; [| done].
  by rewrite (rollout_fuel_mono _ _ _ _ _ _ _ Hle E1).
Qed.

Lemma train_loop_fuel_mono callback (num_updates : Z) (fuel : nat) :
  ∀ fuel' ts o, (fuel ≤ fuel')%nat →
    CMAES.train_loop fuel callback num_updates ts = Some o →
    CMAES.train_loop fuel' callback num_updates ts = Some o.
Proof.
  induction fuel as [|fuel IH]; intros fuel' ts o Hle E.
  - destruct fuel'; simpl in *; destruct (CMAES.ts_step ts <? num_updates); congruence.
  - destruct fuel' as [|fuel']; [lia |]. simpl in *.
    destruct (CMAES.ts_step ts <? num_updates); [| done].
    destruct (CMAES.generation fuel callback ts) as [o1|] eqn:E1; simpl in E; [| done].
    rewrite (generation_fuel_mono _ fuel fuel' _ _ ltac:(lia) E1). simpl.
    destruct o1 as [ts1|e]; simpl in *; [| done].
    apply IH; [lia | done].
Qed.

(** The rollout loop ends when the episodes do. *)
Lemma rollout_terminates (n : Z) population callback s :
  episodes_end (CMAES.l_env s) (CMAES.l_done s) →
  ∃ fuel o, CMAES.rollout fuel n population callback s = Some o.
Proof.
  remember (CMAES.l_env s) as e eqn:He. remember (CMAES.l_done s) as dn eqn:Hd.
  intros Hend. revert s He Hd.
  induction Hend as [e dn Hall | e dn _ IH]; intros s -> ->.
  - exists 0%nat, (Ret s). simpl. by rewrite Hall.
  - destruct (np_all (CMAES.l_done s)) eqn:Hall.
    { exists 0%nat, (Ret s). simpl. by rewrite Hall. }
    destruct (CMAES.rollout_step n population callback s) as [s1|err] eqn:E1.
    + destruct (rollout_step_inv _ _ _ _ _ E1)
        as (p & actions & env & obs & reward & new_done
            & _ & Hstep & Hor & _ & _ & Henv & _).
      destruct (IH _ _ _ _ _ _ Hstep Hor s1) as (fuel & o & E); [done | done |].
      exists (S fuel), o. simpl. rewrite Hall, E1. exact E.
    + exists 1%nat, (Raise err). simpl. by rewrite Hall, E1.
Qed.

(** A rollout that returns has made [m] passes, the last of which set every
    done-flag. *)
Lemma rollout_Ret (n : Z) population callback (fuel : nat) :
  ∀ s s', CMAES.rollout fuel n population callback s = Some (Ret s') →
    np_all (CMAES.l_done s') = true ∧
    ∃ m, steps m n population callback s = Ret s' ∧
         CMAES.l_step s' = CMAES.l_step s + n * Z.of_nat m ∧
         (np_all (CMAES.l_done s) = true → m = 0%nat) ∧
         (np_all (CMAES.l_done s) = false →
          ∃ m' s_prev, m = S m' ∧ steps m' n population callback s = Ret s_prev ∧
            np_all (CMAES.l_done s_prev) = false ∧
            CMAES.rollout_step n population callback s_prev = Ret s').
Proof.
  assert (∀ s s', np_all (CMAES.l_done s) = true → Ret s = Ret s' →
    np_all (CMAES.l_done s') = true ∧
    ∃ m, steps m n population callback s = Ret s' ∧
         CMAES.l_step s' = CMAES.l_step s + n * Z.of_nat m ∧
         (np_all (CMAES.l_done s) = true → m = 0%nat) ∧
         (np_all (CMAES.l_done s) = false →
          ∃ m' s_prev, m = S m' ∧ steps m' n population callback s = Ret s_prev ∧
            np_all (CMAES.l_done s_prev) = false ∧
            CMAES.rollout_step n population callback s_prev = Ret s')) as Hstop.
  { intros s s' Hall [= <-]. split; [done |]. exists 0%nat. simpl.
    split; [done |]. split; [lia |]. split; [done | congruence]. }
  induction fuel as [|fuel IH]; intros s s' E; simpl in E;
    (destruct (bool_dec (np_all (CMAES.l_done s)) true) as [Hall|Hall];
     [rewrite Hall in E; apply Hstop; [done | congruence] |]);
    apply not_true_is_false in Hall; rewrite Hall in E; [done |].
  destruct (CMAES.rollout_step n population callback s) as [s1|err] eqn:E1;
    simpl in E; [| done].
  destruct (IH _ _ E) as (Hall' & m & Hsteps & Hcount & Hzero & Hlast).
  split; [done |]. exists (S m). simpl. rewrite E1. simpl.
  split; [done |]. split.
  { destruct (rollout_step_inv _ _ _ _ _ E1)
      as (? & ? & ? & ? & ? & ? & _ & _ & _ & _ & _ & _ & _ & Hs1). lia. }
  split; [congruence |].
  intros _. destruct (bool_dec (np_all (CMAES.l_done s1)) true) as [Hall1|Hall1].
  - (* the pass from [s] was the last one *)
    rewrite (Hzero Hall1) in Hsteps. simpl in Hsteps. injection Hsteps as <-.
    exists 0%nat, s. simpl. by rewrite (Hzero Hall1).
  - apply not_true_is_false in Hall1.
    destruct (Hlast Hall1) as (m' & s_prev & -> & Hsteps' & Hprev & Hfin).
    exists (S m'), s_prev. simpl. rewrite E1. simpl. done.
Qed.

(** What the head of a generation sets up. *)
Lemma sampling_Ret ts (es1 : ES) population s0 :
  CMAES.sampling ts = Ret (es1, population, s0) →
  0 ≤ CMAES.n_population (CMAES.ts_self ts) ∧
  env_reset (CMAES.ts_env ts) = Ret (CMAES.l_env s0, CMAES.l_obs s0) ∧
  es_ask (CMAES.es (CMAES.ts_self ts)) = Ret (es1, population) ∧
  CMAES.l_r s0 = replicate (Z.to_nat (CMAES.n_population (CMAES.ts_self ts))) rzero ∧
  CMAES.l_done s0 = replicate (Z.to_nat (CMAES.n_population (CMAES.ts_self ts))) false ∧
  CMAES.l_policy s0 = CMAES.policy (CMAES.ts_self ts) ∧
  CMAES.l_cb s0 = CMAES.ts_cb ts ∧
  CMAES.l_step s0 = CMAES.ts_step ts.
Proof.
  unfold CMAES.sampling. intros E.
  bind_inv E as [env obs] Ereset. bind_inv E as r Er.
  bind_inv E as [es1' population'] Eask. bind_inv E as dn Edone.
  apply np_zeros_Ret in Er as [Hn ->]. apply np_full_Ret in Edone as [_ ->].
  injection E as <- <- <-. simpl. by split_and!.
Qed.

(** What the tail of a generation leaves. *)
Lemma scoring_Ret (self : CMAES.t P R ES) (es1 : ES) population s ts' :
  CMAES.scoring self es1 population s = Ret ts' →
  ∃ es2, es_tell es1 population (np_neg (CMAES.l_r s)) = Ret es2 ∧
    CMAES.es (CMAES.ts_self ts') = es2 ∧
    CMAES.best_model (CMAES.ts_self ts') = es_xbest es2 ∧
    CMAES.policy (CMAES.ts_self ts') = CMAES.l_policy s ∧
    CMAES.n_population (CMAES.ts_self ts') = CMAES.n_population self ∧
    CMAES.ts_env ts' = CMAES.l_env s ∧
    CMAES.ts_cb ts' = CMAES.l_cb s ∧
    CMAES.ts_step ts' = CMAES.l_step s.
Proof.
  unfold CMAES.scoring. intros E. bind_inv E as es2 Etell.
  injection E as <-. exists es2. simpl. by split_and!.
Qed.

(** A generation that returns went through its three stages. *)
Lemma generation_inv (fuel : nat) callback ts ts' :
  CMAES.generation fuel callback ts = Some (Ret ts') →
  ∃ es1 population s0 s,
    CMAES.sampling ts = Ret (es1, population, s0) ∧
    CMAES.rollout fuel (CMAES.n_population (CMAES.ts_self ts)) population callback s0
      = Some (Ret s) ∧
    CMAES.scoring (CMAES.ts_self ts) es1 population s = Ret ts'.
Proof.
  unfold CMAES.generation. intros E.
  destruct (CMAES.sampling ts) as [[[es1 population] s0]|e]; simpl in E; [| done].
  destruct (CMAES.rollout fuel _ population callback s0) as [[s|e]|] eqn:E1;
    simpl in E; [| done | done].
  exists es1, population, s0, s. split_and!; [done | done | congruence].
Qed.

(** A generation of a trainer with at least one candidate steps the
    environment at least once, and every step adds the population size to
    the counter. *)
Lemma generation_counts (fuel : nat) callback ts ts' :
  1 ≤ CMAES.n_population (CMAES.ts_self ts) →
  CMAES.generation fuel callback ts = Some (Ret ts') →
  CMAES.n_population (CMAES.ts_self ts') = CMAES.n_population (CMAES.ts_self ts) ∧
  ∃ m, (1 ≤ m)%nat ∧
    CMAES.ts_step ts' =
      CMAES.ts_step ts + CMAES.n_population (CMAES.ts_self ts) * Z.of_nat m.
Proof.
  intros Hn E.
  apply generation_inv in E as (es1 & population & s0 & s & Hsam & Hroll & Hsco).
  apply sampling_Ret in Hsam as (_ & _ & _ & _ & Hdone & _ & _ & Hstep0).
  apply scoring_Ret in Hsco as (es2 & _ & _ & _ & _ & Hpop & _ & _ & Hstep).
  apply rollout_Ret in Hroll as (_ & m & _ & Hcount & _ & Hlast).
  split; [done |].
  destruct Hlast as (m' & _ & -> & _).
  { rewrite Hdone. apply np_all_replicate_false. lia. }
  exists (S m'). split; [lia |]. congruence.
Qed.

(** A generation ends when the episodes do. *)
Lemma generation_terminates callback ts :
  (∀ e e' obs, env_reset e = Ret (e', obs) →
     episodes_end e' (replicate (Z.to_nat (CMAES.n_population (CMAES.ts_self ts))) false)) →
  ∃ fuel o, CMAES.generation fuel callback ts = Some o.
Proof.
  intros Hend. unfold CMAES.generation.
  destruct (CMAES.sampling ts) as [[[es1 population] s0]|e] eqn:Hsam; simpl.
  - apply sampling_Ret in Hsam as (_ & Hreset & _ & _ & Hdone & _).
    destruct (rollout_terminates (CMAES.n_population (CMAES.ts_self ts))
                population callback s0) as (fuel & o & E).
    { rewrite Hdone. by eapply Hend. }
    exists fuel. rewrite E. destruct o as [s|e]; simpl; eauto.
  - exists 0%nat. eauto.
Qed.

(** The outer loop ends when the episodes do: every generation adds at
    least the population size to the counter. *)
Lemma train_loop_terminates callback (num_updates n : Z) :
  1 ≤ n →
  (∀ e e' obs, env_reset e = Ret (e', obs) →
     episodes_end e' (replicate (Z.to_nat n) false)) →
  ∀ (bound : nat) ts,
    CMAES.n_population (CMAES.ts_self ts) = n →
    num_updates - CMAES.ts_step ts ≤ Z.of_nat bound →
    ∃ fuel o, CMAES.train_loop fuel callback num_updates ts = Some o.
Proof.
  intros Hn Hend bound.
  induction bound as [|bound IH]; intros ts Hpop Hleft.
  - exists 0%nat, (Ret ts). simpl.
    destruct (Z.ltb_spec (CMAES.ts_step ts) num_updates); [lia | done].
  - destruct (Z.ltb_spec (CMAES.ts_step ts) num_updates) as [Hlt|Hge].
    2:{ exists 0%nat, (Ret ts). simpl.
        destruct (Z.ltb_spec (CMAES.ts_step ts) num_updates); [lia | done]. }
    destruct (generation_terminates callback ts) as (fuel1 & o1 & E1).
    { by rewrite Hpop. }
    destruct o1 as [ts1|err].
    + assert (1 ≤ CMAES.n_population (CMAES.ts_self ts)) as Hn' by lia.
      destruct (generation_counts _ _ _ _ Hn' E1) as (Hpop1 & m & Hm & Hstep1).
      destruct (IH ts1) as (fuel2 & o & E2); [congruence | nia |].
      exists (S (fuel1 `max` fuel2)), o. simpl.
      destruct (Z.ltb_spec (CMAES.ts_step ts) num_updates); [| lia].
      rewrite (generation_fuel_mono _ fuel1 (fuel1 `max` fuel2) _ _ ltac:(lia) E1).
      simpl.
      apply (train_loop_fuel_mono _ _ fuel2); [lia | done].
    + exists (S fuel1), (Raise err). simpl.
      destruct (Z.ltb_spec (CMAES.ts_step ts) num_updates); [| lia].
      by rewrite E1.
Qed.

(** When the outer loop returns, the counter has reached the budget, and
    either no generation ran or the last one started below the budget. *)
Lemma train_loop_Ret callback (num_updates : Z) (fuel : nat) :
  ∀ ts final, CMAES.train_loop fuel callback num_updates ts = Some (Ret final) →
    num_updates ≤ CMAES.ts_step final ∧
    ((num_updates ≤ CMAES.ts_step ts ∧ final = ts) ∨
     (CMAES.ts_step ts < num_updates ∧
      ∃ fuel' last, CMAES.ts_step last < num_updates ∧
        CMAES.n_population (CMAES.ts_self last)
          = CMAES.n_population (CMAES.ts_self ts) ∧
        CMAES.generation fuel' callback last = Some (Ret final))).
Proof.
  induction fuel as [|fuel IH]; intros ts final E; simpl in E;
    destruct (Z.ltb_spec (CMAES.ts_step ts) num_updates) as [Hlt|Hge];
    try done; try (injection E as <-; split; [lia | left; done]).
  destruct (CMAES.generation fuel callback ts) as [[ts1|err]|] eqn:E1;
    simpl in E; [| done | done].
  assert (CMAES.n_population (CMAES.ts_self ts1)
          = CMAES.n_population (CMAES.ts_self ts)) as Hpop.
  { apply generation_inv in E1 as (es1 & population & s0 & s & _ & _ & Hsco).
    by apply scoring_Ret in Hsco as (es2 & _ & _ & _ & _ & Hpop & _). }
  destruct (IH _ _ E) as (Hfinal & [[Hstop ->] | [_ Hlast]]).
  - split; [done |]. right. split; [done |]. exists fuel, ts. done.
  - split; [done |]. right. split; [done |].
    destruct Hlast as (fuel' & last & Hlt' & Hpop' & Hgen).
    exists fuel', last. split_and!; [done | congruence | done].
Qed.

(** C2, amended.  For a trainer with at least one candidate, on an
    environment whose episodes all eventually report done, [train] ends
    (it returns or raises) for every step budget.  Each pass through the
    rollout loop adds exactly the population size to the step counter.  When
    [train] returns, the counter has reached the budget; the budget is
    looked at between generations only, so the counter stands at the budget
    or beyond it by what the last generation added: that generation started
    below the budget and made [m] environment steps. *)
Theorem train_ends_once_a_generation_reaches_budget
    (self : CMAES.t P R ES) (env : Env) callback (cb : CB) (num_updates : Z) :
  1 ≤ CMAES.n_population self →
  (∀ e e' obs, env_reset e = Ret (e', obs) →
     episodes_end e' (replicate (Z.to_nat (CMAES.n_population self)) false)) →
  (∀ population s s',
     CMAES.rollout_step (CMAES.n_population self) population callback s = Ret s' →
     CMAES.l_step s' = CMAES.l_step s + CMAES.n_population self) ∧
  ∃ fuel outcome,
    CMAES.train fuel self env callback cb num_updates = Some outcome ∧
    ∀ final, outcome = Ret final →
      num_updates ≤ CMAES.ts_step final ∧
      ((num_updates ≤ 0 ∧ CMAES.ts_step final = 0) ∨
       ∃ fuel' last m,
         CMAES.ts_step last < num_updates ∧
         CMAES.generation fuel' callback last = Some (Ret final) ∧
         (1 ≤ m)%nat ∧
         CMAES.ts_step final
           = CMAES.ts_step last + CMAES.n_population self * Z.of_nat m).
Proof.
  intros Hn Hend. split.
  { intros population s s' E.
    by apply rollout_step_inv in E as (? & ? & ? & ? & ? & ? & _ & _ & _ & _ & _ & _ & _ & E). }
  unfold CMAES.train.
  set (ts0 := {| CMAES.ts_self := self; CMAES.ts_env := env; CMAES.ts_cb := cb;
                 CMAES.ts_step := 0 |}).
  destruct (train_loop_terminates callback num_updates (CMAES.n_population self)
              Hn Hend (Z.to_nat num_updates) ts0) as (fuel & outcome & E).
  { done. }
  { simpl. lia. }
  exists fuel, outcome. split; [done |].
  intros final ->.
  apply train_loop_Ret in E as (Hreach & [[Hstop ->] | (_ & fuel' & last & Hlt & Hpop & Hgen)]).
  - split; [done |]. left. done.
  - split; [done |]. right.
    simpl in Hpop.
    destruct (generation_counts _ _ _ _ ltac:(rewrite Hpop; exact Hn) Hgen)
      as (_ & m & Hm & Hstep).
    exists fuel', last, m. rewrite <- Hpop. done.
Qed.

(** C3. At the end of a generation the fitness vector handed to [tell] is
    the accumulated reward vector negated entry by entry, and the cached
    best parameters are then read back from the strategy as [tell] left
    it. *)
Theorem tell_gets_negated_rewards (fuel : nat) callback ts ts' :
  CMAES.generation fuel callback ts = Some (Ret ts') →
  ∃ es1 population s0 s es2,
    CMAES.sampling ts = Ret (es1, population, s0) ∧
    CMAES.rollout fuel (CMAES.n_population (CMAES.ts_self ts)) population callback s0
      = Some (Ret s) ∧
    generation_fitness fuel callback ts = Some (Ret (np_neg (CMAES.l_r s))) ∧
    es_tell es1 population (np_neg (CMAES.l_r s)) = Ret es2 ∧
    length (np_neg (CMAES.l_r s)) = length (CMAES.l_r s) ∧
    (∀ k, np_neg (CMAES.l_r s) !! k = ropp <$> CMAES.l_r s !! k) ∧
    CMAES.es (CMAES.ts_self ts') = es2 ∧
    CMAES.best_model (CMAES.ts_self ts') = es_xbest es2.
Proof.
  intros E.
  apply generation_inv in E as (es1 & population & s0 & s & Hsam & Hroll & Hsco).
  apply scoring_Ret in Hsco as (es2 & Htell & Hes & Hbest & _).
  exists es1, population, s0, s, es2. split_and!; try done.
  - unfold generation_fitness. rewrite Hsam. simpl. by rewrite Hroll.
  - apply np_neg_length.
  - intros k. apply np_neg_lookup.
Qed.

End TrainFacts.

(** ** The policy's action *)

Section ArgmaxFacts.
Context {R : Type} {scalar : Scalar R}.
Hypothesis rleb_total : ∀ x y : R, rleb x y = true ∨ rleb y x = true.
Hypothesis rleb_trans : ∀ x y z : R, rleb x y = true → rleb y z = true → rleb x z = true.

(** The scan keeps the first greatest entry of what it has seen. *)
Lemma argmax_from_spec (a : list R) :
  ∀ (seen : list R) (best : R) (ibest : nat),
    seen !! ibest = Some best →
    (∀ j x, seen !! j = Some x → rleb x best = true) →
    (∀ j x, (j < ibest)%nat → seen !! j = Some x → rleb best x = false) →
    ∃ top, (seen ++ a) !! argmax_from best ibest (length seen) a = Some top ∧
      (∀ j x, (seen ++ a) !! j = Some x → rleb x top = true) ∧
      (∀ j x, (j < argmax_from best ibest (length seen) a)%nat →
              (seen ++ a) !! j = Some x → rleb top x = false).
Proof.
  induction a as [|x a IH]; intros seen best ibest Hbest Hmax Hfirst; simpl.
  - exists best. rewrite app_nil_r. done.
  - assert (seen ++ x :: a = (seen ++ [x]) ++ a) as -> by by rewrite <- app_assoc.
    assert (S (length seen) = length (seen ++ [x])) as ->
      by (rewrite length_app; simpl; lia).
    destruct (rleb x best) eqn:Hx; simpl.
    + (* [x] is no greater: the best entry stays *)
      apply IH.
      * rewrite lookup_app_l; [done | by eapply lookup_lt_Some].
      * intros j y Hj. apply lookup_app_Some in Hj as [Hj | [_ Hj]]; [eauto |].
        apply list_lookup_singleton_Some in Hj as [_ <-]. done.
      * intros j y Hlt Hj. apply lookup_app_Some in Hj as [Hj | [Hge _]]; [eauto |].
        apply lookup_lt_Some in Hbest. lia.
    + (* [x] is strictly greater: it becomes the best entry *)
      assert (rleb best x = true) as Hbx.
      { destruct (rleb_total best x) as [E|E]; [done | congruence]. }
      apply IH.
      * rewrite lookup_app_r by lia. by rewrite Nat.sub_diag.
      * intros j y Hj. apply lookup_app_Some in Hj as [Hj | [_ Hj]].
        -- eapply rleb_trans; [by eapply Hmax | done].
        -- apply list_lookup_singleton_Some in Hj as [_ <-].
           destruct (rleb_total x x); done.
      * intros j y Hlt Hj. apply lookup_app_Some in Hj as [Hj | [Hge _]]; [| lia].
        destruct (rleb x y) eqn:Hxy; [| done].
        rewrite (rleb_trans x y best Hxy (Hmax _ _ Hj)) in Hx. done.
Qed.

Lemma np_argmax_spec (a : list R) :
  a ≠ [] →
  ∃ i top, np_argmax a = Ret i ∧ a !! i = Some top ∧
    (∀ j x, a !! j = Some x → rleb x top = true) ∧
    (∀ j x, (j < i)%nat → a !! j = Some x → rleb top x = false).
Proof.
  destruct a as [|x a]; [done |]. intros _. simpl.
  destruct (argmax_from_spec a [x] x 0%nat) as (top & Htop & Hmax & Hfirst).
  - done.
  - intros j y Hj. apply list_lookup_singleton_Some in Hj as [_ <-].
    destruct (rleb_total x x); done.
  - intros j y Hlt. lia.
  - exists (argmax_from x 0%nat 1%nat a), top. done.
Qed.

End ArgmaxFacts.

Section PolicyFacts.
Context {Net Obs R : Type} {scalar : Scalar R} {network : Network Net Obs R}.

(** C7. In continuous-action mode the policy's action is the network's raw
    output.  In discrete-action mode it is the index of the greatest entry of
    the softmax of the output, the lowest such index when several entries
    are greatest (given that the order on the entries is total and
    transitive, as it is on numbers that are not NaN). *)
Theorem getAction_is_first_argmax_of_softmax
    (self : PytorchPolicy.t Net) (obs : Obs) (out : list R) :
  (∀ x y : R, rleb x y = true ∨ rleb y x = true) →
  (∀ x y z : R, rleb x y = true → rleb y z = true → rleb x z = true) →
  forward (PytorchPolicy.model self) obs = Ret out →
  if PytorchPolicy.continuous_actions self then
    PytorchPolicy.getAction self obs = Ret (Continuous out)
  else
    match softmax out with
    | [] => PytorchPolicy.getAction self obs = Raise ValueError
    | _ :: _ =>
        ∃ i top, PytorchPolicy.getAction self obs = Ret (Discrete i) ∧
          softmax out !! i = Some top ∧
          (∀ j x, softmax out !! j = Some x → rleb x top = true) ∧
          (∀ j x, (j < i)%nat → softmax out !! j = Some x → rleb top x = false)
    end.
Proof.
  intros Htotal Htrans Hout. unfold PytorchPolicy.getAction.
  destruct (PytorchPolicy.continuous_actions self); rewrite Hout; simpl; [done |].
  destruct (softmax out) as [|x a] eqn:Hsoft; [done |].
  destruct (np_argmax_spec Htotal Htrans (x :: a)) as (i & top & Harg & Hrest); [done |].
  exists i, top. rewrite Harg. done.
Qed.

End PolicyFacts.

(** ** The policy after training *)

Section PolicyAfterTraining.
Context {P Obs Act R Env ES CB : Type}.
Context {scalar : Scalar R} {pol : Policy.t P Obs Act R}.
Context {venv : VecEnv Env Obs Act R} {strategy : Strategy ES R}.

Implicit Types (s : CMAES.loop P Obs R Env CB).
Implicit Types (ts : CMAES.train_state P R Env ES CB).
Implicit Types (callback : option (CMAES.callback_t P Obs Act R Env CB)).
Implicit Types (population : list (list R)).

Lemma np_all_false (a : list bool) :
  np_all a = false → ∃ k, a !! k = Some false.
Proof.
  unfold np_all. induction a as [|[] a IH]; simpl; intros E.
  - done.
  - destruct (IH E) as [k Hk]. by exists (S k).
  - by exists 0%nat.
Qed.

Lemma last_not_done_is_Some (n : nat) (done : list bool) :
  length done = n → np_all done = false → ∃ k, last_not_done n done = Some k.
Proof.
  intros Hlen Hall. destruct (np_all_false _ Hall) as [k Hk].
  unfold last_not_done. apply last_is_Some. intros Hnil.
  eapply (filter_nil_not_elem_of _ _ k Hnil Hk).
  apply elem_of_seq. apply lookup_lt_Some in Hk. lia.
Qed.

(** The done-flags keep their number through the passes of a rollout. *)
Lemma steps_done_length (n : Z) population callback (m : nat) :
  ∀ s s', steps m n population callback s = Ret s' →
    length (CMAES.l_done s') = length (CMAES.l_done s).
Proof.
  induction m as [|m IH]; intros s s' E; simpl in E.
  - by injection E as <-.
  - bind_inv E as s1 E1. rewrite (IH _ _ E).
    apply rollout_step_inv in E1 as (? & ? & ? & ? & ? & ? & _ & _ & Hor & _).
    by apply np_bitwise_or_Ret in Hor as (_ & Hlen & _).
Qed.

Section OtherBest.
Variable xbest : ES → option (list R).

(** Neither the strategy's report of its best solution nor the cached best
    parameters bear on a generation, the cache it refreshes apart. *)
Lemma sampling_besides_best ts1 ts2 :
  forget_best ts1 = forget_best ts2 →
  CMAES.sampling (strategy := with_xbest xbest) ts1 = CMAES.sampling ts2.
Proof.
  destruct ts1 as [[] ? ? ?], ts2 as [[] ? ? ?].
  unfold forget_best, with_best_model. simpl. intros [= -> -> -> -> -> -> -> -> ->].
  reflexivity.
Qed.

Lemma scoring_besides_best (self1 self2 : CMAES.t P R ES) (es1 : ES) population s :
  with_best_model None self1 = with_best_model None self2 →
  forget_best <$> CMAES.scoring (strategy := with_xbest xbest) self1 es1 population s
  = forget_best <$> CMAES.scoring self2 es1 population s.
Proof.
  destruct self1, self2. unfold with_best_model. simpl.
  intros [= -> -> -> -> -> ->].
  unfold CMAES.scoring. simpl.
  destruct (es_tell es1 population (np_neg (CMAES.l_r s))); reflexivity.
Qed.

Lemma generation_besides_best (fuel : nat) callback ts1 ts2 :
  forget_best ts1 = forget_best ts2 →
  besides_best (CMAES.generation (strategy := with_xbest xbest) fuel callback ts1)
  = besides_best (CMAES.generation fuel callback ts2).
Proof.
  intros Hsame. unfold CMAES.generation.
  rewrite (sampling_besides_best _ _ Hsame).
  assert (with_best_model None (CMAES.ts_self ts1)
          = with_best_model None (CMAES.ts_self ts2)) as Hself
    by (unfold forget_best in Hsame; congruence).
  assert (CMAES.n_population (CMAES.ts_self ts1)
          = CMAES.n_population (CMAES.ts_self ts2)) as ->
    by (unfold with_best_model in Hself; congruence).
  destruct (CMAES.sampling ts2) as [[[es1 population] s0]|e]; simpl; [| done].
  destruct (CMAES.rollout fuel _ population callback s0) as [[s|e]|]; simpl;
    [| done | done].
  pose proof (scoring_besides_best _ _ es1 population s Hself) as Hsco.
  destruct (CMAES.scoring (strategy := with_xbest xbest) _ es1 population s),
    (CMAES.scoring (CMAES.ts_self ts2) es1 population s); simpl in *; congruence.
Qed.

Lemma train_loop_besides_best callback (num_updates : Z) (fuel : nat) :
  ∀ ts1 ts2, forget_best ts1 = forget_best ts2 →
    besides_best (CMAES.train_loop (strategy := with_xbest xbest) fuel callback
                    num_updates ts1)
    = besides_best (CMAES.train_loop fuel callback num_updates ts2).
Proof.
  induction fuel as [|fuel IH]; intros ts1 ts2 Hsame; simpl;
    (assert (CMAES.ts_step ts1 = CMAES.ts_step ts2) as ->
       by (unfold forget_best in Hsame; congruence));
    destruct (CMAES.ts_step ts2 <? num_updates); simpl; try congruence; try done.
  pose proof (generation_besides_best fuel callback _ _ Hsame) as Hgen.
  destruct (CMAES.generation (strategy := with_xbest xbest) fuel callback ts1)
    as [[ts1'|e1]|],
    (CMAES.generation fuel callback ts2) as [[ts2'|e2]|];
    simpl in *; try congruence.
  apply IH. congruence.
Qed.

End OtherBest.

(** C8. [CMAES.getAction] hands the observation to the one policy object
    as it stands.  After a [train] that ran at least one generation, that
    policy is what [setParam] made of it with the candidate of the last
    instance not yet done in the final rollout step.  Nothing writes the
    best parameters into the policy: whatever the strategy reports as its
    best and whatever the cache held, the run leaves the same policy, so the
    same actions. *)
Theorem getAction_uses_last_candidate_not_best
    (fuel : nat) (self : CMAES.t P R ES) (env : Env) callback (cb : CB)
    (num_updates : Z) (final : CMAES.train_state P R Env ES CB) :
  1 ≤ CMAES.n_population self →
  0 < num_updates →
  CMAES.train fuel self env callback cb num_updates = Some (Ret final) →
  (∀ obs, CMAES.getAction (CMAES.ts_self final) obs
          = Policy.getAction (CMAES.policy (CMAES.ts_self final)) obs) ∧
  (∃ fuel' last es1 population s0 m s_prev s k param p0,
     CMAES.ts_step last < num_updates ∧
     CMAES.generation fuel' callback last = Some (Ret final) ∧
     CMAES.sampling last = Ret (es1, population, s0) ∧
     steps m (CMAES.n_population self) population callback s0 = Ret s_prev ∧
     CMAES.rollout_step (CMAES.n_population self) population callback s_prev = Ret s ∧
     np_all (CMAES.l_done s) = true ∧
     last_not_done (Z.to_nat (CMAES.n_population self)) (CMAES.l_done s_prev) = Some k ∧
     population !! k = Some param ∧
     Policy.setParam p0 param = Ret (CMAES.policy (CMAES.ts_self final))) ∧
  (∀ (xbest : ES → option (list R)) (b : option (list R)),
     besides_best (CMAES.train (strategy := with_xbest xbest) fuel
                     (with_best_model b self) env callback cb num_updates)
     = Some (Ret (forget_best final)) ∧
     ∀ final', CMAES.train (strategy := with_xbest xbest) fuel
                 (with_best_model b self) env callback cb num_updates
               = Some (Ret final') →
       ∀ obs, CMAES.getAction (CMAES.ts_self final') obs
              = CMAES.getAction (CMAES.ts_self final) obs).
Proof.
  intros Hn Hbudget Htrain. split; [done |]. split.
  - unfold CMAES.train in Htrain.
    apply train_loop_Ret in Htrain
      as (_ & [[Hstop _] | (_ & fuel' & last & Hlt & Hpop & Hgen)]);
      [simpl in Hstop; lia |].
    simpl in Hpop.
    destruct (generation_inv _ _ _ _ Hgen)
      as (es1 & population & s0 & s & Hsam & Hroll & Hsco).
    rewrite Hpop in Hroll.
    destruct (sampling_Ret _ _ _ _ Hsam) as (_ & _ & _ & _ & Hdone0 & _).
    rewrite Hpop in Hdone0.
    apply scoring_Ret in Hsco as (es2 & _ & _ & _ & Hpol & _).
    apply rollout_Ret in Hroll as (Hall & m & _ & _ & _ & Hlast).
    destruct Hlast as (m' & s_prev & _ & Hsteps & Hprev & Hstep).
    { rewrite Hdone0. apply np_all_replicate_false. lia. }
    destruct (last_not_done_is_Some (Z.to_nat (CMAES.n_population self))
                (CMAES.l_done s_prev)) as [k Hk]; [| done |].
    { rewrite (steps_done_length _ _ _ _ _ _ Hsteps), Hdone0.
      apply length_replicate. }
    destruct (rollout_step_inv _ _ _ _ _ Hstep)
      as (p & actions & ? & ? & ? & ? & Hsel & _ & _ & _ & Hp & _).
    apply select_actions_Ret in Hsel as (_ & _ & Hwritten).
    rewrite Hk in Hwritten. destruct Hwritten as (p0 & param & Hparam & Hset).
    exists fuel', last, es1, population, s0, m', s_prev, s, k, param, p0.
    split_and!; try done. congruence.
  - intros xbest b.
    assert (besides_best (CMAES.train (strategy := with_xbest xbest) fuel
                            (with_best_model b self) env callback cb num_updates)
            = Some (Ret (forget_best final))) as Hsame.
    { unfold CMAES.train.
      rewrite (train_loop_besides_best xbest callback num_updates fuel _
                 {| CMAES.ts_self := self; CMAES.ts_env := env; CMAES.ts_cb := cb;
                    CMAES.ts_step := 0 |}); [| done].
      unfold CMAES.train in Htrain. by rewrite Htrain. }
    split; [done |].
    intros final' Hfinal' obs. rewrite Hfinal' in Hsame. simpl in Hsame.
    unfold CMAES.getAction.
    assert (CMAES.policy (CMAES.ts_self final') = CMAES.policy (CMAES.ts_self final))
      as -> by (unfold forget_best, with_best_model in Hsame; congruence).
    done.
Qed.

End PolicyAfterTraining.

(** ** The strategy protocol and failures *)

Section ProtocolFacts.
Context {P Obs Act R Env ES CB : Type}.
Context {scalar : Scalar R} {pol : Policy.t P Obs Act R}.
Context {venv : VecEnv Env Obs Act R} {strategy : Strategy ES R}.

Implicit Types (s : CMAES.loop P Obs R Env CB).
Implicit Types (ts : CMAES.train_state P R Env ES CB).
Implicit Types (callback : option (CMAES.callback_t P Obs Act R Env CB)).
Implicit Types (population : list (list R)).

(** The accumulated rewards keep their number through the passes of a
    rollout. *)
Lemma steps_r_length (n : Z) population callback (m : nat) :
  ∀ s s', steps m n population callback s = Ret s' →
    length (CMAES.l_r s') = length (CMAES.l_r s).
Proof.
  induction m as [|m IH]; intros s s' E; simpl in E.
  - by injection E as <-.
  - bind_inv E as s1 E1. rewrite (IH _ _ E).
    apply rollout_step_inv in E1 as (? & ? & ? & ? & ? & ? & _ & _ & _ & Hadd & _).
    by apply np_masked_iadd_Ret in Hadd as (_ & _ & Hlen & _).
Qed.

(** A pass on flags that are all false reads every candidate below [n]. *)
Lemma first_pass_reads_population (n : Z) population callback s s' :
  CMAES.l_done s = replicate (Z.to_nat n) false →
  CMAES.rollout_step n population callback s = Ret s' →
  (Z.to_nat n ≤ length population)%nat.
Proof.
  intros Hdone E.
  apply rollout_step_inv in E as (p & actions & ? & ? & ? & ? & Hsel & _).
  apply select_actions_Ret in Hsel as (_ & Hact & _).
  destruct (decide (Z.to_nat n ≤ length population)%nat) as [|Hshort]; [done |].
  destruct (Hact (length population)) as [[Hd _] | (_ & Hsome & _)]; [lia | |].
  - rewrite Hdone, lookup_replicate_2 in Hd by lia. congruence.
  - apply lookup_lt_is_Some in Hsome. lia.
Qed.

(** X1. In a generation that returns, [tell] is called once, on the strategy
    as that generation's [ask] left it, with the population that [ask]
    returned and a fitness vector of as many entries as the population size;
    the population has at least that many candidates. *)
Theorem tell_follows_ask_with_aligned_fitness (fuel : nat) callback ts ts' :
  CMAES.generation fuel callback ts = Some (Ret ts') →
  ∃ es1 population s es2,
    es_ask (CMAES.es (CMAES.ts_self ts)) = Ret (es1, population) ∧
    es_tell es1 population (np_neg (CMAES.l_r s)) = Ret es2 ∧
    CMAES.es (CMAES.ts_self ts') = es2 ∧
    length (np_neg (CMAES.l_r s)) = Z.to_nat (CMAES.n_population (CMAES.ts_self ts)) ∧
    (Z.to_nat (CMAES.n_population (CMAES.ts_self ts)) ≤ length population)%nat.
Proof.
  intros E.
  apply generation_inv in E as (es1 & population & s0 & s & Hsam & Hroll & Hsco).
  apply sampling_Ret in Hsam as (_ & _ & Hask & Hr0 & Hdone0 & _).
  apply scoring_Ret in Hsco as (es2 & Htell & Hes & _).
  apply rollout_Ret in Hroll as (_ & m & Hsteps & _ & _ & Hlast).
  exists es1, population, s, es2. split_and!; try done.
  - rewrite np_neg_length, (steps_r_length _ _ _ _ _ _ Hsteps), Hr0.
    apply length_replicate.
  - destruct (np_all (CMAES.l_done s0)) eqn:Hall.
    + (* no candidate at all *)
      rewrite Hdone0 in Hall.
      destruct (Z.to_nat (CMAES.n_population (CMAES.ts_self ts))); [lia | done].
    + destruct (Hlast eq_refl) as (m' & _ & -> & _).
      simpl in Hsteps. bind_inv Hsteps as s1 Hfirst.
      by eapply first_pass_reads_population.
Qed.

Lemma act_for_setParam_raise population (obs : list Obs) (done : list bool)
    (k : nat) (p : P) (actions : list (option Act)) (o : Obs) (param : list R) (e : exn) :
  done !! k = Some false → obs !! k = Some o → population !! k = Some param →
  Policy.setParam p param = Raise e →
  CMAES.act_for population obs done k (p, actions) = Raise e.
Proof.
  intros Hd Ho Hparam Hset. unfold CMAES.act_for, index.
  rewrite Hd. simpl. rewrite Ho. simpl. rewrite Hparam. simpl. by rewrite Hset.
Qed.

(** X2. Nothing in [train] catches what [setParam] raises: when the first
    candidate of a generation is refused by the policy, the rollout, the
    generation and [train] end with that exception. *)
Theorem setParam_failure_aborts_train (fuel : nat) callback (num_updates : Z) ts
    (es1 : ES) population s0 (o : Obs) (param : list R) (e : exn) :
  CMAES.sampling ts = Ret (es1, population, s0) →
  1 ≤ CMAES.n_population (CMAES.ts_self ts) →
  CMAES.ts_step ts < num_updates →
  CMAES.l_obs s0 !! 0%nat = Some o →
  population !! 0%nat = Some param →
  Policy.setParam (CMAES.policy (CMAES.ts_self ts)) param = Raise e →
  CMAES.rollout_step (CMAES.n_population (CMAES.ts_self ts)) population callback s0
    = Raise e ∧
  CMAES.generation (S fuel) callback ts = Some (Raise e) ∧
  CMAES.train_loop (S (S fuel)) callback num_updates ts = Some (Raise e).
Proof.
  intros Hsam Hn Hlt Hobs Hparam Hset.
  destruct (sampling_Ret _ _ _ _ Hsam) as (_ & _ & _ & _ & Hdone0 & Hpol0 & _).
  assert (CMAES.rollout_step (CMAES.n_population (CMAES.ts_self ts)) population
            callback s0 = Raise e) as Hstep.
  { unfold CMAES.rollout_step, CMAES.select_actions.
    destruct (Z.to_nat (CMAES.n_population (CMAES.ts_self ts))) as [|n'] eqn:Hnat;
      [lia |].
    simpl.
    rewrite (act_for_setParam_raise population _ _ 0%nat _ [] o param e); try done.
    - by rewrite Hdone0.
    - by rewrite Hpol0. }
  assert (CMAES.generation (S fuel) callback ts = Some (Raise e)) as Hgen.
  { unfold CMAES.generation. rewrite Hsam. simpl.
    rewrite Hdone0, np_all_replicate_false by lia. by rewrite Hstep. }
  split_and!; try done.
  simpl CMAES.train_loop.
  destruct (Z.ltb_spec (CMAES.ts_step ts) num_updates); [| lia].
  by rewrite Hgen.
Qed.

End ProtocolFacts.

(** ** [main] and the command line *)

Lemma twice_quotient_above_halved (nt np : Z) :
  1 ≤ np ≤ nt → nt / (np * 2) < nt / np * 2.
Proof.
  intros Hnp. rewrite <- Z.div_div by lia.
  assert (0 < nt / np) by (apply Z.div_str_pos; lia).
  apply Z.div_lt_upper_bound; lia.
Qed.

Lemma twice_quotient_below_total (nt np : Z) :
  3 ≤ np → 0 < nt → nt / np * 2 < nt.
Proof.
  intros Hnp Hnt.
  assert (np * (nt / np) ≤ nt) by (apply Z.mul_div_le; lia).
  assert (0 ≤ nt / np) by (apply Z.div_pos; lia).
  nia.
Qed.

Lemma with_defaults_customArguments (args : gmap string pyval) :
  args !! "num_population" = None → args !! "mu" = None → args !! "sigma" = None →
  with_defaults (customArguments []) args
  = <["sigma" := PyNum (PyFloat 0.2)]>
      (<["mu" := PyNum (PyInt 0)]>
         (<["num_population" := PyNum (PyInt 20)]> args)).
Proof.
  intros Hpop Hmu Hsigma.
  unfold with_defaults, customArguments, add_argument, dest. simpl.
  rewrite Hpop.
  rewrite lookup_insert_ne, Hmu by done.
  rewrite !lookup_insert_ne, Hsigma by done.
  reflexivity.
Qed.

Section MainFacts.
Context {Net Obs R Env ES CB : Type}.
Context {scalar : Scalar R} {network : Network Net Obs R}.
Context {venv : VecEnv Env Obs (action R) R}.
Context {strategy : Strategy ES R} {world : World Env Net}.

(** What [main] read from [args] when its set-up returns. *)
Lemma main_setup_inv (args : gmap string pyval) (envs : Env)
    (model : CMAES.t (PytorchPolicy.t Net) R ES) (num_updates : Z) :
  main_setup (Obs := Obs) args = Ret (envs, model, num_updates) →
  ∃ num_population mu sigma num_timesteps net flag,
    getattr args "num_population" ≫= as_int = Ret num_population ∧
    getattr args "mu" ≫= as_num = Ret mu ∧
    getattr args "sigma" ≫= as_num = Ret sigma ∧
    getattr args "continuous_actions" = Ret flag ∧
    (x ← getattr args "num_timesteps" ≫= as_num; py_int x) = Ret num_timesteps ∧
    CMAES.init (Obs := Obs) num_population (PytorchPolicy.init net (truthy flag))
      mu sigma (truthy flag) = Ret model ∧
    num_population ≠ 0 ∧
    num_updates = num_timesteps / num_population * 2.
Proof.
  unfold main_setup. intros E.
  bind_inv E as num_population Epop. bind_inv E as envs0 Eenv.
  bind_inv E as flag Eflag. simpl in E. bind_inv E as srl Esrl.
  bind_inv E as [envs1 net] Enet.
  bind_inv E as mu Emu. bind_inv E as sigma Esigma. bind_inv E as model' Einit.
  bind_inv E as x Ex. bind_inv E as num_timesteps Ent. bind_inv E as q Eq.
  injection E as <- <- <-.
  unfold py_floordiv in Eq.
  destruct (Z.eqb_spec num_population 0) as [|Hnz]; [done |]. injection Eq as <-.
  exists num_population, mu, sigma, num_timesteps, net, flag.
  split_and!; try done. by rewrite Ex.
Qed.

(** C9. The step budget [main] hands to [train] is the quotient of the
    configured timesteps by the population size, times two: that is more
    than the timesteps divided by twice the population size as soon as the
    quotient is not zero, and less than the timesteps themselves for three
    candidates or more. *)
Theorem main_budget_is_twice_the_quotient (args : gmap string pyval) (envs : Env)
    (model : CMAES.t (PytorchPolicy.t Net) R ES) (num_updates : Z) :
  main_setup (Obs := Obs) args = Ret (envs, model, num_updates) →
  ∃ num_timesteps num_population,
    (x ← getattr args "num_timesteps" ≫= as_num; py_int x) = Ret num_timesteps ∧
    getattr args "num_population" ≫= as_int = Ret num_population ∧
    num_population ≠ 0 ∧
    num_updates = num_timesteps / num_population * 2 ∧
    (∀ (fuel : nat)
       (callback : option (CMAES.callback_t (PytorchPolicy.t Net) Obs (action R) R Env CB))
       (cb : CB),
       main fuel args callback cb
       = CMAES.train fuel model envs callback cb (num_timesteps / num_population * 2)) ∧
    (1 ≤ num_population ≤ num_timesteps →
     num_timesteps / (num_population * 2) < num_updates) ∧
    (3 ≤ num_population → 0 < num_timesteps → num_updates < num_timesteps).
Proof.
  intros E.
  destruct (main_setup_inv _ _ _ _ E)
    as (num_population & mu & sigma & num_timesteps & net & flag
        & Hpop & _ & _ & _ & Hnt & _ & Hnz & ->).
  exists num_timesteps, num_population. split_and!; try done.
  - intros fuel callback cb. unfold main. by rewrite E.
  - apply twice_quotient_above_halved.
  - apply twice_quotient_below_total.
Qed.

(** C10. The options this file adds carry the defaults 20 for the population
    size, 0 for the initial mean and 0.2 for the initial step size; on a
    command line that names none of them, [main] builds its trainer with
    these: a strategy of population size 20, started at step size 0.2 from
    the mean 0 in every coordinate of the policy's parameter space. *)
Theorem defaults_reach_the_search_distribution (args : gmap string pyval) (envs : Env)
    (model : CMAES.t (PytorchPolicy.t Net) R ES) (num_updates : Z) :
  args !! "num_population" = None → args !! "mu" = None → args !! "sigma" = None →
  main_setup (Obs := Obs) (with_defaults (customArguments []) args)
    = Ret (envs, model, num_updates) →
  (λ a, (dest a, arg_default a)) <$> customArguments []
    = [("num_population", PyInt 20); ("mu", PyInt 0); ("sigma", PyFloat 0.2)] ∧
  CMAES.n_population model = 20 ∧
  CMAES.init_mu model = PyInt 0 ∧
  CMAES.init_sigma model = PyFloat 0.2 ∧
  es_new (replicate (PytorchPolicy.getParamSpace (CMAES.policy model)) (PyInt 0))
    (PyFloat 0.2) 20 = Ret (CMAES.es model).
Proof.
  intros Hpop Hmu Hsigma E. split; [reflexivity |].
  rewrite (with_defaults_customArguments _ Hpop Hmu Hsigma) in E.
  destruct (main_setup_inv _ _ _ _ E)
    as (num_population & mu & sigma & num_timesteps & net & flag
        & Epop & Emu & Esigma & _ & _ & Einit & _).
  unfold getattr in Epop, Emu, Esigma.
  rewrite !lookup_insert_ne, lookup_insert_eq in Epop by done.
  rewrite lookup_insert_ne, lookup_insert_eq in Emu by done.
  rewrite lookup_insert_eq in Esigma.
  simpl in Epop, Emu, Esigma.
  injection Epop as <-. injection Emu as <-. injection Esigma as <-.
  unfold CMAES.init in Einit. bind_inv Einit as es0 Enew.
  injection Einit as <-. simpl. done.
Qed.

End MainFacts.

(** ** The statements on the small world *)

Section OnTheBench.
Import Bench.

Lemma Z_leb_total (x y : Z) : rleb x y = true ∨ rleb y x = true.
Proof. simpl. destruct (Z.leb_spec x y), (Z.leb_spec y x); auto; lia. Qed.

Lemma Z_leb_trans (x y z : Z) : rleb x y = true → rleb y z = true → rleb x z = true.
Proof. simpl. rewrite !Z.leb_le. lia. Qed.

(** The two countdown episodes end within two steps of a reset. *)
Lemma countdown_episodes_end (e e' : list nat) (obs : list Z) :
  env_reset e = Ret (e', obs) → episodes_end e' (replicate 2 false).
Proof.
  intros [= <- _].
  apply episodes_go_on. intros actions e1 obs1 reward1 new_done1 done1 [= <- _ _ <-] [= <-].
  apply episodes_go_on. intros actions2 e2 obs2 reward2 new_done2 done2 [= <- _ _ <-] [= <-].
  by apply episodes_ended.
Qed.

Example first_pass : CMAES.rollout_step 2 population0 (Some count_calls) loop0 = Ret loop1.
Proof. reflexivity. Qed.

Example first_generation : CMAES.generation 3 (Some count_calls) ts0 = Some (Ret ts1).
Proof. reflexivity. Qed.

Example tie_goes_to_lowest_index : PytorchPolicy.getAction tie_policy 1 = Ret (Discrete 1%nat).
Proof. reflexivity. Qed.

Example budget_of_hundred_timesteps :
  (λ '(_, _, num_updates), num_updates)
    <$> main_setup (Obs := Z) (ES := nat * option (list Z))
          (with_defaults (customArguments []) args0)
  = Ret 10.
Proof. vm_compute. reflexivity. Qed.

(** C1 on the small world: instance 0 reports done on the first pass, so its
    reward of 10 is not added; instance 1 goes on and adds its 20.  On every
    later pass instance 0 keeps its accumulator and its flag and is sent the
    no-op. *)
Lemma first_pass_masks_the_done_instance :
  ∃ p actions env obs reward new_done,
    CMAES.select_actions 2 population0 loop0 = Ret (p, actions) ∧
    env_step (CMAES.l_env loop0) actions = Ret (env, (obs, reward, new_done)) ∧
    ∀ k d rk, CMAES.l_done loop0 !! k = Some d → CMAES.l_r loop0 !! k = Some rk →
      ∃ nd w, new_done !! k = Some nd ∧ reward !! k = Some w ∧
        CMAES.l_done loop1 !! k = Some (d || nd) ∧
        CMAES.l_r loop1 !! k = Some (if d || nd then rk else radd rk w) ∧
        (d = true → (k < Z.to_nat 2)%nat → actions !! k = Some None) ∧
        (d || nd = true →
         ∀ m s'', steps m 2 population0 (Some count_calls) loop1 = Ret s'' →
           CMAES.l_r s'' !! k = Some rk ∧
           CMAES.l_done s'' !! k = Some true ∧
           ∀ p'' actions'', (k < Z.to_nat 2)%nat →
             CMAES.select_actions 2 population0 s'' = Ret (p'', actions'') →
             actions'' !! k = Some None).
Proof.
  apply (reward_added_iff_not_done_after_merge 2 population0 (Some count_calls)
           loop0 loop1).
  reflexivity.
Defined.

(** C2 on the small world: with two candidates and a budget of nine steps,
    [train] ends, and what it returns has a counter of nine or more. *)
Lemma train_on_countdown_ends :
  (∀ population s s',
     CMAES.rollout_step (CMAES.n_population trainer0) population (Some count_calls) s
       = Ret s' →
     CMAES.l_step s' = CMAES.l_step s + CMAES.n_population trainer0) ∧
  ∃ fuel outcome,
    CMAES.train fuel trainer0 [1; 2]%nat (Some count_calls) 0%nat 9 = Some outcome ∧
    ∀ final, outcome = Ret final →
      9 ≤ CMAES.ts_step final ∧
      ((9 ≤ 0 ∧ CMAES.ts_step final = 0) ∨
       ∃ fuel' last m,
         CMAES.ts_step last < 9 ∧
         CMAES.generation fuel' (Some count_calls) last = Some (Ret final) ∧
         (1 ≤ m)%nat ∧
         CMAES.ts_step final
           = CMAES.ts_step last + CMAES.n_population trainer0 * Z.of_nat m).
Proof.
  apply (train_ends_once_a_generation_reaches_budget trainer0 [1; 2]%nat
           (Some count_calls) 0%nat 9).
  - simpl. lia.
  - exact countdown_episodes_end.
Defined.

(** C2 as the specification words it fails: on an environment whose episodes
    all end, with two candidates and a budget of one step, [train] returns
    with a counter of four, which is not below the budget plus the
    population size.  The one generation it ran took two environment
    steps. *)
Lemma train_overshoots_budget_plus_population :
  (∀ e e' obs, env_reset e = Ret (e', obs) →
     episodes_end e' (replicate (Z.to_nat (CMAES.n_population trainer0)) false)) ∧
  CMAES.train 3 trainer0 [1; 2]%nat (Some count_calls) 0%nat 1 = Some (Ret ts1) ∧
  CMAES.ts_step ts1 = 4 ∧
  ¬ (1 ≤ CMAES.ts_step ts1 < 1 + CMAES.n_population trainer0).
Proof.
  split; [exact countdown_episodes_end |].
  split; [reflexivity |]. split; [reflexivity |]. simpl. lia.
Qed.

(** C3 on the small world: the first generation accumulates the rewards
    [0; 20] and tells the strategy the fitness [0; -20]. *)
Lemma first_generation_tells_negated_rewards :
  ∃ es1 population s0 s es2,
    CMAES.sampling ts0 = Ret (es1, population, s0) ∧
    CMAES.rollout 3 (CMAES.n_population (CMAES.ts_self ts0)) population
      (Some count_calls) s0 = Some (Ret s) ∧
    generation_fitness 3 (Some count_calls) ts0 = Some (Ret (np_neg (CMAES.l_r s))) ∧
    es_tell es1 population (np_neg (CMAES.l_r s)) = Ret es2 ∧
    length (np_neg (CMAES.l_r s)) = length (CMAES.l_r s) ∧
    (∀ k, np_neg (CMAES.l_r s) !! k = ropp <$> CMAES.l_r s !! k) ∧
    CMAES.es (CMAES.ts_self ts1) = es2 ∧
    CMAES.best_model (CMAES.ts_self ts1) = es_xbest es2.
Proof.
  apply (tell_gets_negated_rewards 3 (Some count_calls) ts0 ts1).
  reflexivity.
Defined.

Example first_generation_fitness :
  generation_fitness 3 (Some count_calls) ts0 = Some (Ret [0; -20]).
Proof. reflexivity. Qed.

(** C7 on the small world: the softmax output [3; 5; 5] has its greatest
    entry at indices 1 and 2, and the action is an index of a greatest entry
    with only smaller entries before it. *)
Lemma tie_policy_picks_first_greatest :
  ∃ i top, PytorchPolicy.getAction tie_policy 1 = Ret (Discrete i) ∧
    [3; 5; 5] !! i = Some top ∧
    (∀ j x, [3; 5; 5] !! j = Some x → rleb x top = true) ∧
    (∀ j x, (j < i)%nat → [3; 5; 5] !! j = Some x → rleb top x = false).
Proof.
  exact (getAction_is_first_argmax_of_softmax tie_policy 1 [3; 5; 5]
           Z_leb_total Z_leb_trans eq_refl).
Defined.

(** C8 on the small world: after one generation the policy holds the
    candidate [0; 2] of instance 1, the last one not yet done in the final
    rollout step, and the same run on a strategy that reports [9; 9] as its
    best, started with [7; 7] cached, leaves the same policy. *)
Lemma policy_after_first_generation_is_last_candidate :
  (∃ fuel' last es1 population s0 m s_prev s k param p0,
     CMAES.ts_step last < 1 ∧
     CMAES.generation fuel' (Some count_calls) last = Some (Ret ts1) ∧
     CMAES.sampling last = Ret (es1, population, s0) ∧
     steps m (CMAES.n_population trainer0) population (Some count_calls) s0 = Ret s_prev ∧
     CMAES.rollout_step (CMAES.n_population trainer0) population (Some count_calls) s_prev
       = Ret s ∧
     np_all (CMAES.l_done s) = true ∧
     last_not_done (Z.to_nat (CMAES.n_population trainer0)) (CMAES.l_done s_prev) = Some k ∧
     population !! k = Some param ∧
     Policy.setParam p0 param = Ret (CMAES.policy (CMAES.ts_self ts1))) ∧
  besides_best (CMAES.train (strategy := with_xbest (λ _, Some [9; 9])) 3
                  (with_best_model (Some [7; 7]) trainer0) [1; 2]%nat
                  (Some count_calls) 0%nat 1)
  = Some (Ret (forget_best ts1)).
Proof.
  destruct (getAction_uses_last_candidate_not_best 3 trainer0 [1; 2]%nat
              (Some count_calls) 0%nat 1 ts1) as (_ & Hlast & Hbest).
  - simpl. lia.
  - lia.
  - reflexivity.
  - split; [exact Hlast |]. exact (proj1 (Hbest (λ _, Some [9; 9]) (Some [7; 7]))).
Defined.

Example policy_after_first_generation :
  PytorchPolicy.model (CMAES.policy (CMAES.ts_self ts1)) = [0; 2] ∧
  CMAES.best_model (CMAES.ts_self ts1) = Some [0; 1].
Proof. split; reflexivity. Qed.

Example main_setup_on_defaults :
  main_setup (Obs := Z) (with_defaults (customArguments []) args0)
  = Ret ([1; 2]%nat, main_trainer, 10).
Proof. vm_compute. reflexivity. Qed.

(** C9 on the small world: 100 timesteps and the default population of 20
    give [train] a budget of 100 // 20 * 2 = 10, neither 100 nor
    100 // 40 = 2. *)
Lemma hundred_timesteps_give_budget_ten :
  ∃ num_timesteps num_population,
    (x ← getattr (with_defaults (customArguments []) args0) "num_timesteps" ≫= as_num;
     py_int x) = Ret num_timesteps ∧
    getattr (with_defaults (customArguments []) args0) "num_population" ≫= as_int
      = Ret num_population ∧
    num_population ≠ 0 ∧
    10 = num_timesteps / num_population * 2 ∧
    (∀ (fuel : nat)
       (callback : option (CMAES.callback_t (PytorchPolicy.t (list Z)) Z (action Z) Z
                             (list nat) nat))
       (cb : nat),
       main fuel (with_defaults (customArguments []) args0) callback cb
       = CMAES.train fuel main_trainer [1; 2]%nat callback cb
           (num_timesteps / num_population * 2)) ∧
    (1 ≤ num_population ≤ num_timesteps → num_timesteps / (num_population * 2) < 10) ∧
    (3 ≤ num_population → 0 < num_timesteps → 10 < num_timesteps).
Proof.
  apply (main_budget_is_twice_the_quotient (Obs := Z) (CB := nat)
           (with_defaults (customArguments []) args0) [1; 2]%nat main_trainer 10).
  exact main_setup_on_defaults.
Defined.

Example budget_is_neither_total_nor_halved_quotient :
  100 / 20 * 2 = 10 ∧ 100 / 20 * 2 ≠ 100 ∧ 100 / (20 * 2) = 2.
Proof. split_and!; [reflexivity | discriminate | reflexivity]. Qed.

(** C10 on the small world: on a command line that names none of this
    file's options the trainer has population size 20, mean 0 and step size
    0.2, and its strategy was built from them. *)
Lemma trainer_of_bare_command_line :
  (λ a, (dest a, arg_default a)) <$> customArguments []
    = [("num_population", PyInt 20); ("mu", PyInt 0); ("sigma", PyFloat 0.2)] ∧
  CMAES.n_population main_trainer = 20 ∧
  CMAES.init_mu main_trainer = PyInt 0 ∧
  CMAES.init_sigma main_trainer = PyFloat 0.2 ∧
  es_new (replicate (PytorchPolicy.getParamSpace (CMAES.policy main_trainer)) (PyInt 0))
    (PyFloat 0.2) 20 = Ret (CMAES.es main_trainer).
Proof.
  apply (defaults_reach_the_search_distribution (Obs := Z) args0 [1; 2]%nat
           main_trainer 10).
  - reflexivity.
  - reflexivity.
  - reflexivity.
  - exact main_setup_on_defaults.
Defined.

(** X1 on the small world: the first generation tells the strategy the two
    candidates it asked for and two fitness values. *)
Lemma first_generation_keeps_protocol :
  ∃ es1 population (s : CMAES.loop (PytorchPolicy.t (list Z)) Z Z (list nat) nat) es2,
    es_ask (CMAES.es (CMAES.ts_self ts0)) = Ret (es1, population) ∧
    es_tell es1 population (np_neg (CMAES.l_r s)) = Ret es2 ∧
    CMAES.es (CMAES.ts_self ts1) = es2 ∧
    length (np_neg (CMAES.l_r s)) = Z.to_nat (CMAES.n_population (CMAES.ts_self ts0)) ∧
    (Z.to_nat (CMAES.n_population (CMAES.ts_self ts0)) ≤ length population)%nat.
Proof.
  apply (tell_follows_ask_with_aligned_fitness 3 (Some count_calls) ts0 ts1).
  reflexivity.
Defined.

(** X2 on the small world: a policy of three weights refuses the first
    candidate of two entries, and [train] ends with that [ValueError]. *)
Lemma refused_candidate_aborts_train :
  CMAES.rollout_step (CMAES.n_population (CMAES.ts_self mismatched_ts)) population0
    (Some count_calls) mismatched_loop0 = Raise ValueError ∧
  CMAES.generation 1 (Some count_calls) mismatched_ts = Some (Raise ValueError) ∧
  CMAES.train_loop 2 (Some count_calls) 1 mismatched_ts = Some (Raise ValueError).
Proof.
  apply (setParam_failure_aborts_train 0 (Some count_calls) 1 mismatched_ts
           (0%nat, None) population0 mismatched_loop0 1 [0; 1] ValueError).
  - reflexivity.
  - simpl. lia.
  - simpl. lia.
  - reflexivity.
  - reflexivity.
  - reflexivity.
Defined.

End OnTheBench.

(** * Further facts *)

(** ** What a rollout adds up, sends and how long it runs *)

Section RolloutReturns.
Context {P Obs Act R Env ES CB : Type}.
Context {scalar : Scalar R} {pol : Policy.t P Obs Act R}.
Context {venv : VecEnv Env Obs Act R} {strategy : Strategy ES R}.

Implicit Types (s : CMAES.loop P Obs R Env CB).
Implicit Types (ts : CMAES.train_state P R Env ES CB).
Implicit Types (callback : option (CMAES.callback_t P Obs Act R Env CB)).
Implicit Types (population : list (list R)) (actions : list (option Act)).

(** Passes that return have answers to list, one per pass. *)
Lemma steps_responses (n : Z) population callback (m : nat) :
  ∀ s s', steps m n population callback s = Ret s' →
    ∃ answers, responses m n population callback s = Ret answers ∧ length answers = m.
Proof.
  induction m as [|m IH]; intros s s' E; simpl in E.
  - exists []. done.
  - bind_inv E as s1 E1.
    destruct (IH _ _ E) as (rest & Hrest & Hlen).
    destruct (rollout_step_inv _ _ _ _ _ E1)
      as (p & actions & env & obs & reward & new_done & Hsel & Hstep & _).
    exists ((reward, new_done) :: rest). simpl.
    rewrite Hsel. simpl. rewrite Hstep. simpl. rewrite E1. simpl. rewrite Hrest.
    split; [done | by rewrite Hlen].
Qed.

(** The accumulator of an instance that is not done yet, after [m] passes. *)
Lemma steps_return_until_done (n : Z) population callback (k : nat) (m : nat) :
  ∀ s s' answers (r0 : R),
    steps m n population callback s = Ret s' →
    responses m n population callback s = Ret answers →
    CMAES.l_done s !! k = Some false →
    CMAES.l_r s !! k = Some r0 →
    CMAES.l_r s' !! k = Some (return_until_done k r0 answers).
Proof.
  induction m as [|m IH]; intros s s' answers r0 E Hans Hd Hr; simpl in E, Hans.
  - injection E as <-. by injection Hans as <-.
  - bind_inv E as s1 E1.
    bind_inv Hans as [p actions] Hsel. bind_inv Hans as [env [[obs reward] new_done]] Hstep.
    rewrite E1 in Hans. simpl in Hans. bind_inv Hans as rest Hrest.
    injection Hans as <-.
    destruct (rollout_step_inv _ _ _ _ _ E1)
      as (p' & actions' & env' & obs' & reward' & new_done' & Hsel' & Hstep' & Hor & Hadd & _).
    rewrite Hsel in Hsel'. injection Hsel' as <- <-.
    rewrite Hstep in Hstep'. injection Hstep' as <- <- <- <-.
    destruct (merge_and_mask _ _ _ _ _ _ Hor Hadd k false r0 Hd Hr)
      as (nd & w & Hnd & Hw & Hd1 & Hr1).
    simpl. rewrite Hnd, Hw. simpl in Hd1, Hr1.
    destruct nd.
    + by destruct (done_is_frozen _ _ _ k r0 m _ _ E Hd1 Hr1).
    + by eapply IH.
Qed.

(** X3. The fitness a generation tells for candidate [k] is the negation of
    what instance [k] earned before it first reported done: its rewards added
    to zero one after the other, step by step, the reward of the step on
    which it reports done left out. *)
Theorem fitness_is_negated_return_until_done (fuel : nat) callback ts ts' :
  CMAES.generation fuel callback ts = Some (Ret ts') →
  ∃ es1 population s0 s m answers,
    CMAES.sampling ts = Ret (es1, population, s0) ∧
    steps m (CMAES.n_population (CMAES.ts_self ts)) population callback s0 = Ret s ∧
    responses m (CMAES.n_population (CMAES.ts_self ts)) population callback s0
      = Ret answers ∧
    length answers = m ∧
    es_tell es1 population (np_neg (CMAES.l_r s)) = Ret (CMAES.es (CMAES.ts_self ts')) ∧
    ∀ k, (k < Z.to_nat (CMAES.n_population (CMAES.ts_self ts)))%nat →
      np_neg (CMAES.l_r s) !! k = Some (ropp (return_until_done k rzero answers)).
Proof.
  intros E.
  apply generation_inv in E as (es1 & population & s0 & s & Hsam & Hroll & Hsco).
  destruct (sampling_Ret _ _ _ _ Hsam) as (_ & _ & _ & Hr0 & Hdone0 & _).
  apply scoring_Ret in Hsco as (es2 & Htell & Hes & _).
  apply rollout_Ret in Hroll as (_ & m & Hsteps & _).
  destruct (steps_responses _ _ _ _ _ _ Hsteps) as (answers & Hans & Hlen).
  exists es1, population, s0, s, m, answers. split_and!; try done.
  - by rewrite Hes.
  - intros k Hk. rewrite np_neg_lookup.
    rewrite (steps_return_until_done _ _ _ k m _ _ answers rzero Hsteps Hans).
    + done.
    + rewrite Hdone0. by apply lookup_replicate_2.
    + rewrite Hr0. by apply lookup_replicate_2.
Qed.

(** Each action the [for] loop appends comes from the policy as [setParam]
    left it with the visited instance's own candidate, on that instance's
    own observation. *)
Lemma for_range_own_candidate population (obs : list Obs) (done : list bool)
    (ks : list nat) :
  ∀ (p p' : P) actions actions',
    for_range ks (CMAES.act_for population obs done) (p, actions) = Ret (p', actions') →
    ∃ new, actions' = actions ++ new ∧
      ∀ j k, ks !! j = Some k →
        (done !! k = Some true ∧ new !! j = Some None) ∨
        (done !! k = Some false ∧
         ∃ o param p0 pk a, obs !! k = Some o ∧ population !! k = Some param ∧
           Policy.setParam p0 param = Ret pk ∧ Policy.getAction pk o = Ret a ∧
           new !! j = Some (Some a)).
Proof.
  induction ks as [|k ks IH]; intros p p' actions actions' E; simpl in E.
  - injection E as <- <-. exists []. rewrite app_nil_r. split; [done |].
    intros j k Hj. rewrite lookup_nil in Hj. discriminate.
  - bind_inv E as [p1 actions1] Est.
    apply IH in E as (new & -> & Hnew).
    apply act_for_Ret in Est.
    destruct Est as [(Hd & -> & ->) | (Hd & o & param & a & Ho & Hparam & Hset & Hget & ->)].
    + exists (None :: new). rewrite <- app_assoc. split; [done |].
      intros [|j] k' Hj; simpl in Hj; [| by apply Hnew].
      simplify_eq. by left.
    + exists (Some a :: new). rewrite <- app_assoc. split; [done |].
      intros [|j] k' Hj; simpl in Hj; [| by apply Hnew].
      simplify_eq. right. split; [done |]. by exists o, param, p, p1, a.
Qed.

(** X4. Every call of [env.step] gets one action per instance: the no-op
    [None] for an instance that is done, and for any other instance [k] the
    action the policy chose on observation [k] right after [setParam] loaded
    candidate [k] into it. *)
Theorem each_instance_acts_on_its_own_candidate (n : Z) population callback s s' :
  CMAES.rollout_step n population callback s = Ret s' →
  ∃ actions env obs reward new_done,
    env_step (CMAES.l_env s) actions = Ret (env, (obs, reward, new_done)) ∧
    length actions = Z.to_nat n ∧
    ∀ k, (k < Z.to_nat n)%nat →
      (CMAES.l_done s !! k = Some true ∧ actions !! k = Some None) ∨
      (CMAES.l_done s !! k = Some false ∧
       ∃ o param p0 pk a,
         CMAES.l_obs s !! k = Some o ∧ population !! k = Some param ∧
         Policy.setParam p0 param = Ret pk ∧ Policy.getAction pk o = Ret a ∧
         actions !! k = Some (Some a)).
Proof.
  intros E.
  destruct (rollout_step_inv _ _ _ _ _ E)
    as (p & actions & env & obs & reward & new_done & Hsel & Hstep & _).
  exists actions, env, obs, reward, new_done. split; [done |].
  split; [by apply select_actions_Ret in Hsel as (Hlen & _) |].
  unfold CMAES.select_actions in Hsel.
  apply for_range_own_candidate in Hsel as (new & -> & Hnew).
  intros k Hk. simpl. apply (Hnew k k). by apply lookup_seq_lt.
Qed.

(** X5. A rollout that returns made just the passes it needed: after its
    last pass every done-flag is set, and before each of its passes some
    instance was still not done. *)
Theorem rollout_stops_at_first_all_done (n : Z) population callback (fuel : nat) :
  ∀ s s', CMAES.rollout fuel n population callback s = Some (Ret s') →
    ∃ m, steps m n population callback s = Ret s' ∧
      np_all (CMAES.l_done s') = true ∧
      ∀ j s_j, (j < m)%nat → steps j n population callback s = Ret s_j →
        np_all (CMAES.l_done s_j) = false.
Proof.
  induction fuel as [|fuel IH]; intros s s' E; simpl in E;
    (destruct (bool_dec (np_all (CMAES.l_done s)) true) as [Hall|Hall];
     [rewrite Hall in E; injection E as <-; exists 0%nat;
      split; [done |]; split; [done |]; intros; lia |]);
    apply not_true_is_false in Hall; rewrite Hall in E; [done |].
  destruct (CMAES.rollout_step n population callback s) as [s1|err] eqn:E1;
    simpl in E; [| done].
  destruct (IH _ _ E) as (m & Hsteps & Hall' & Hbefore).
  exists (S m). simpl. rewrite E1. simpl. split; [done |]. split; [done |].
  intros [|j] s_j Hj Hsj; simpl in Hsj.
  - by injection Hsj as <-.
  - rewrite E1 in Hsj. simpl in Hsj. eapply Hbefore; [| done]. lia.
Qed.

End RolloutReturns.

(** ** What training keeps *)

Section TrainKeeps.
Context {P Obs Act R Env ES CB : Type}.
Context {scalar : Scalar R} {pol : Policy.t P Obs Act R}.
Context {venv : VecEnv Env Obs Act R} {strategy : Strategy ES R}.

Implicit Types (s : CMAES.loop P Obs R Env CB).
Implicit Types (ts : CMAES.train_state P R Env ES CB).
Implicit Types (callback : option (CMAES.callback_t P Obs Act R Env CB)).
Implicit Types (population : list (list R)) (actions : list (option Act)).

Lemma generation_keeps_hyperparameters (fuel : nat) callback ts ts' :
  CMAES.generation fuel callback ts = Some (Ret ts') →
  CMAES.n_population (CMAES.ts_self ts') = CMAES.n_population (CMAES.ts_self ts) ∧
  CMAES.init_mu (CMAES.ts_self ts') = CMAES.init_mu (CMAES.ts_self ts) ∧
  CMAES.init_sigma (CMAES.ts_self ts') = CMAES.init_sigma (CMAES.ts_self ts) ∧
  CMAES.continuous_actions (CMAES.ts_self ts')
    = CMAES.continuous_actions (CMAES.ts_self ts).
Proof.
  intros E.
  apply generation_inv in E as (es1 & population & s0 & s & _ & _ & Hsco).
  unfold CMAES.scoring in Hsco. bind_inv Hsco as es2 Htell.
  by injection Hsco as <-.
Qed.

Lemma train_hyperparameters (fuel : nat) (self : CMAES.t P R ES) (env : Env)
    callback (cb : CB) (num_updates : Z) (final : CMAES.train_state P R Env ES CB) :
  CMAES.train fuel self env callback cb num_updates = Some (Ret final) →
  CMAES.n_population (CMAES.ts_self final) = CMAES.n_population self ∧
  CMAES.init_mu (CMAES.ts_self final) = CMAES.init_mu self ∧
  CMAES.init_sigma (CMAES.ts_self final) = CMAES.init_sigma self ∧
  CMAES.continuous_actions (CMAES.ts_self final) = CMAES.continuous_actions self.
Proof.
  unfold CMAES.train.
  assert (∀ ts, CMAES.train_loop fuel callback num_updates ts = Some (Ret final) →
    CMAES.n_population (CMAES.ts_self final) = CMAES.n_population (CMAES.ts_self ts) ∧
    CMAES.init_mu (CMAES.ts_self final) = CMAES.init_mu (CMAES.ts_self ts) ∧
    CMAES.init_sigma (CMAES.ts_self final) = CMAES.init_sigma (CMAES.ts_self ts) ∧
    CMAES.continuous_actions (CMAES.ts_self final)
      = CMAES.continuous_actions (CMAES.ts_self ts)) as Hloop.
  { induction fuel as [|fuel IH]; intros ts E; simpl in E;
      destruct (CMAES.ts_step ts <? num_updates); try done;
      try (by injection E as <-).
    destruct (CMAES.generation fuel callback ts) as [[ts1|err]|] eqn:E1;
      simpl in E; [| done | done].
    destruct (generation_keeps_hyperparameters _ _ _ _ E1) as (G1 & G2 & G3 & G4).
    destruct (IH _ E) as (H1 & H2 & H3 & H4).
    split_and!; congruence. }
  intros E. apply (Hloop _ E).
Qed.

Section PolicyInvariant.
Variable Inv : P → Prop.
Hypothesis setParam_keeps : ∀ p v p', Policy.setParam p v = Ret p' → Inv p → Inv p'.

Lemma for_range_keeps population (obs : list Obs) (done : list bool) (ks : list nat) :
  ∀ (p p' : P) actions actions',
    for_range ks (CMAES.act_for population obs done) (p, actions) = Ret (p', actions') →
    Inv p → Inv p'.
Proof.
  induction ks as [|k ks IH]; intros p p' actions actions' E Hp; simpl in E.
  - by injection E as <- <-.
  - bind_inv E as [p1 actions1] Est. apply (IH _ _ _ _ E).
    apply act_for_Ret in Est
      as [(_ & -> & _) | (_ & o & param & a & _ & _ & Hset & _)]; eauto.
Qed.

Lemma rollout_step_keeps (n : Z) population callback s s' :
  CMAES.rollout_step n population callback s = Ret s' →
  Inv (CMAES.l_policy s) → Inv (CMAES.l_policy s').
Proof.
  intros E Hp.
  apply rollout_step_inv in E as (p & ? & ? & ? & ? & ? & Hsel & _ & _ & _ & -> & _).
  unfold CMAES.select_actions in Hsel. by eapply for_range_keeps.
Qed.

Lemma rollout_keeps (n : Z) population callback (fuel : nat) :
  ∀ s s', CMAES.rollout fuel n population callback s = Some (Ret s') →
    Inv (CMAES.l_policy s) → Inv (CMAES.l_policy s').
Proof.
  induction fuel as [|fuel IH]; intros s s' E Hp; simpl in E;
    destruct (np_all (CMAES.l_done s)); try done; try (by injection E as <-).
  destruct (CMAES.rollout_step n population callback s) as [s1|err] eqn:E1;
    simpl in E; [| done].
  apply (IH _ _ E). by eapply rollout_step_keeps.
Qed.

Lemma generation_keeps (fuel : nat) callback ts ts' :
  CMAES.generation fuel callback ts = Some (Ret ts') →
  Inv (CMAES.policy (CMAES.ts_self ts)) → Inv (CMAES.policy (CMAES.ts_self ts')).
Proof.
  intros E Hp.
  apply generation_inv in E as (es1 & population & s0 & s & Hsam & Hroll & Hsco).
  apply sampling_Ret in Hsam as (_ & _ & _ & _ & _ & Hpol0 & _).
  apply scoring_Ret in Hsco as (es2 & _ & _ & _ & -> & _).
  apply (rollout_keeps _ _ _ _ _ _ Hroll). by rewrite Hpol0.
Qed.

Lemma train_loop_keeps callback (num_updates : Z) (fuel : nat) :
  ∀ ts final, CMAES.train_loop fuel callback num_updates ts = Some (Ret final) →
    Inv (CMAES.policy (CMAES.ts_self ts)) → Inv (CMAES.policy (CMAES.ts_self final)).
Proof.
  induction fuel as [|fuel IH]; intros ts final E Hp; simpl in E;
    destruct (CMAES.ts_step ts <? num_updates); try done;
    try (by injection E as <-).
  destruct (CMAES.generation fuel callback ts) as [[ts1|err]|] eqn:E1;
    simpl in E; [| done | done].
  apply (IH _ _ E). by eapply generation_keeps.
Qed.

End PolicyInvariant.

(** With no candidate the rollout is over before it starts, and the
    generation leaves the step counter where it was. *)
Lemma generation_without_candidates (fuel : nat) callback ts ts' :
  CMAES.n_population (CMAES.ts_self ts) = 0 →
  CMAES.generation fuel callback ts = Some (Ret ts') →
  CMAES.n_population (CMAES.ts_self ts') = 0 ∧ CMAES.ts_step ts' = CMAES.ts_step ts.
Proof.
  intros Hn E.
  destruct (generation_keeps_hyperparameters _ _ _ _ E) as (Hn' & _).
  apply generation_inv in E as (es1 & population & s0 & s & Hsam & Hroll & Hsco).
  apply sampling_Ret in Hsam as (_ & _ & _ & _ & Hdone0 & _ & _ & Hstep0).
  apply scoring_Ret in Hsco as (es2 & _ & _ & _ & _ & _ & _ & _ & Hstep).
  apply rollout_Ret in Hroll as (_ & m & _ & Hcount & Hzero & _).
  rewrite Hn in Hdone0. simpl in Hdone0.
  rewrite (Hzero ltac:(by rewrite Hdone0)) in Hcount.
  split; [congruence | lia].
Qed.

(** X9. A trainer with population size 0 never gets anywhere: no instance
    is ever stepped, the step counter stays below any positive budget, and
    [train] does not return (it runs on, unless a collaborator raises). *)
Theorem train_without_candidates_never_returns (fuel : nat) (self : CMAES.t P R ES)
    (env : Env) callback (cb : CB) (num_updates : Z) :
  CMAES.n_population self = 0 →
  0 < num_updates →
  CMAES.train fuel self env callback cb num_updates = None ∨
  ∃ e, CMAES.train fuel self env callback cb num_updates = Some (Raise e).
Proof.
  intros Hn Hbudget. unfold CMAES.train.
  assert (∀ ts, CMAES.n_population (CMAES.ts_self ts) = 0 →
            CMAES.ts_step ts < num_updates →
            CMAES.train_loop fuel callback num_updates ts = None ∨
            ∃ e, CMAES.train_loop fuel callback num_updates ts = Some (Raise e))
    as Hloop.
  { induction fuel as [|fuel IH]; intros ts Hn0 Hlt; simpl;
      (destruct (Z.ltb_spec (CMAES.ts_step ts) num_updates); [| lia]);
      [by left |].
    destruct (CMAES.generation fuel callback ts) as [[ts1|err]|] eqn:E1; simpl;
      [| right; by exists err | by left].
    destruct (generation_without_candidates _ _ _ _ Hn0 E1) as [Hn1 Hstep1].
    apply IH; [done | lia]. }
  apply Hloop; simpl; [done | lia].
Qed.

End TrainKeeps.

Section PytorchPolicyKeeps.
Context {Net Obs R Env ES CB : Type}.
Context {scalar : Scalar R} {network : Network Net Obs R}.
Context {venv : VecEnv Env Obs (action R) R} {strategy : Strategy ES R}.

Lemma train_param_len
    (fuel : nat) (self : CMAES.t (PytorchPolicy.t Net) R ES) (env : Env)
    (callback : option (CMAES.callback_t (PytorchPolicy.t Net) Obs (action R) R Env CB))
    (cb : CB) (num_updates : Z)
    (final : CMAES.train_state (PytorchPolicy.t Net) R Env ES CB) :
  CMAES.train fuel self env callback cb num_updates = Some (Ret final) →
  PytorchPolicy.getParamSpace (CMAES.policy (CMAES.ts_self final))
    = PytorchPolicy.getParamSpace (CMAES.policy self) ∧
  PytorchPolicy.continuous_actions (CMAES.policy (CMAES.ts_self final))
    = PytorchPolicy.continuous_actions (CMAES.policy self).
Proof.
  intros E. unfold CMAES.train in E.
  apply (train_loop_keeps
           (λ p, PytorchPolicy.getParamSpace p
                   = PytorchPolicy.getParamSpace (CMAES.policy self) ∧
                 PytorchPolicy.continuous_actions p
                   = PytorchPolicy.continuous_actions (CMAES.policy self))
           ) in E; [done | | done].
  intros p v p' Hset [Hlen Hmode]. simpl in Hset.
  unfold PytorchPolicy.setParam in Hset. bind_inv Hset as m Hm.
  by injection Hset as <-.
Qed.

End PytorchPolicyKeeps.

(** ** Checkpoints *)

Section Checkpoints.
Context {Net Obs R Env ES CB File Blob : Type} `{Countable File}.
Context {scalar : Scalar R} {network : Network Net Obs R}.
Context {venv : VecEnv Env Obs (action R) R} {strategy : Strategy ES R}.
Context {files : Files File}.
Context {pickle : Pickle (CMAES.t (PytorchPolicy.t Net) R ES) Blob}.

(** The constructor call [load] makes on a trained trainer is the call that
    built the trainer, with the same parameter count, initial mean, initial
    step size and population size: training changed none of them.  So the
    strategy's constructor returns as it did then. *)
Lemma trained_constructor_returns (self : CMAES.t (PytorchPolicy.t Net) R ES) :
  trained (Obs := Obs) (Env := Env) (CB := CB) self →
  ∃ es0 : ES,
    es_new (replicate (PytorchPolicy.getParamSpace (CMAES.policy self))
              (CMAES.init_mu self))
      (CMAES.init_sigma self) (CMAES.n_population self) = Ret es0.
Proof.
  induction 1 as [n policy mu sigma cont self Hinit
                 | fuel self env callback cb num_updates final _ [es0 IH] Htrain].
  - unfold CMAES.init in Hinit. bind_inv Hinit as es0 Hnew.
    injection Hinit as <-. by exists es0.
  - destruct (train_hyperparameters _ _ _ _ _ _ _ Htrain) as (-> & -> & -> & _).
    destruct (train_param_len _ _ _ _ _ _ _ Htrain) as [-> _].
    by exists es0.
Qed.

(** C4. Take a [save] that returned, a path that opens for reading the file
    the save path opened for writing, and a pickle that loads what it
    dumped.  Then [load] runs the constructor on the saved population size,
    policy, initial mean and initial step size, the action mode left at its
    default, and overwrites what it built with the saved attributes.  For a
    trainer that was built by the constructor and then trained, this
    constructor call returns, the loaded trainer is the saved one, strategy
    and action mode included, and a generation run on it computes the
    fitness vector the same generation computes on the saved one. *)
Theorem load_of_save_is_the_saved_trainer
    (self : CMAES.t (PytorchPolicy.t Net) R ES) (save_path load_path : string)
    (fs fs' : gmap File Blob) :
  (∀ (d : CMAES.t (PytorchPolicy.t Net) R ES) (blob : Blob),
      pickle_dumps d = Ret blob → pickle_loads blob = Ret d) →
  CMAES.save self save_path fs = Ret fs' →
  path_file load_path rb = path_file save_path wb →
  load (Obs := Obs) load_path fs'
    = (model ← CMAES.init (Obs := Obs) (CMAES.n_population self) (CMAES.policy self)
                 (CMAES.init_mu self) (CMAES.init_sigma self)
                 CMAES.default_continuous_actions;
       Ret (set_dict model self)) ∧
  (trained (Obs := Obs) (Env := Env) (CB := CB) self →
   load (Obs := Obs) load_path fs' = Ret self ∧
   ∀ loaded, load (Obs := Obs) load_path fs' = Ret loaded →
     ∀ (fuel : nat)
       (callback : option (CMAES.callback_t (PytorchPolicy.t Net) Obs (action R) R Env CB))
       (env : Env) (cb : CB) (step : Z),
       generation_fitness fuel callback
         {| CMAES.ts_self := loaded; CMAES.ts_env := env; CMAES.ts_cb := cb;
            CMAES.ts_step := step |}
       = generation_fitness fuel callback
           {| CMAES.ts_self := self; CMAES.ts_env := env; CMAES.ts_cb := cb;
              CMAES.ts_step := step |}).
Proof.
  intros Hpickle Hsave Hsame.
  unfold CMAES.save in Hsave. bind_inv Hsave as f Hopen.
  bind_inv Hsave as blob Hdump. injection Hsave as <-.
  assert (load (Obs := Obs) load_path (<[f := blob]> fs)
    = (model ← CMAES.init (Obs := Obs) (CMAES.n_population self) (CMAES.policy self)
                 (CMAES.init_mu self) (CMAES.init_sigma self)
                 CMAES.default_continuous_actions;
       Ret (set_dict model self))) as Hload.
  { unfold load. rewrite Hsame, Hopen. simpl.
    rewrite lookup_insert_eq, (Hpickle _ _ Hdump). done. }
  split; [done |].
  intros Htrained. destruct (trained_constructor_returns _ Htrained) as [es0 Hnew].
  rewrite Hload. unfold CMAES.init. simpl. rewrite Hnew. simpl. unfold set_dict.
  split; [done |]. by intros loaded [= <-].
Qed.

End Checkpoints.

(** ** [main] without a population *)

Section MainEdges.
Context {Net Obs R Env ES CB : Type}.
Context {scalar : Scalar R} {network : Network Net Obs R}.
Context {venv : VecEnv Env Obs (action R) R}.
Context {strategy : Strategy ES R} {world : World Env Net}.

(** X11. [main] cannot train without a population size: when [args] has no
    [num_population] it raises [AttributeError] before anything is built, and
    when [num_population] is 0 it raises too, at the latest when it divides
    the timesteps by it; [train] is not reached. *)
Theorem main_needs_a_population (args : gmap string pyval) (fuel : nat)
    (callback : option (CMAES.callback_t (PytorchPolicy.t Net) Obs (action R) R Env CB))
    (cb : CB) :
  (args !! "num_population" = None →
   main (ES := ES) fuel args callback cb = Some (Raise AttributeError)) ∧
  (getattr args "num_population" ≫= as_int = Ret 0 →
   ∃ e, main_setup (Obs := Obs) (ES := ES) args = Raise e ∧
        main (ES := ES) fuel args callback cb = Some (Raise e)).
Proof.
  split.
  - intros Hnone. unfold main, main_setup, getattr. by rewrite Hnone.
  - intros Hzero.
    destruct (main_setup (Obs := Obs) (ES := ES) args) as [[[envs model] nu]|e] eqn:E.
    + destruct (main_setup_inv _ _ _ _ E)
        as (num_population & mu & sigma & num_timesteps & net & flag
            & Hpop & _ & _ & _ & _ & _ & Hnz & _).
      congruence.
    + exists e. split; [done |]. unfold main. by rewrite E.
Qed.

End MainEdges.

(** ** The multi-layer perceptron *)

(** No decimal numeral starts with a character that is not a digit. *)
Lemma pretty_N_go_head (c : ascii) (x : N) :
  (∀ d, pretty_N_char d ≠ c) →
  ∀ s, (∀ s', s ≠ String c s') → ∀ s', pretty_N_go x s ≠ String c s'.
Proof.
  intros Hc. induction (N.lt_wf_0 x) as [x _ IH]. intros s Hs.
  destruct (decide (x = 0%N)) as [->|Hx].
  - by rewrite pretty_N_go_0.
  - rewrite pretty_N_go_step by lia. apply IH.
    + apply N.div_lt; lia.
    + intros s' [= Hd _]. by apply Hc in Hd.
Qed.

Lemma pretty_nat_head (c : ascii) (i : nat) (s' : string) :
  (∀ d, pretty_N_char d ≠ c) → pretty i ≠ String c s'.
Proof.
  intros Hc. unfold pretty, pretty_nat, pretty, pretty_N.
  case_decide as Hi.
  - intros [= Hd _]. by apply (Hc 0%N).
  - by apply pretty_N_go_head.
Qed.

Lemma digit_is_not_i (d : N) : pretty_N_char d ≠ "i"%char.
Proof. unfold pretty_N_char. by repeat case_match. Qed.

Lemma digit_is_not_o (d : N) : pretty_N_char d ≠ "o"%char.
Proof. unfold pretty_N_char. by repeat case_match. Qed.

Lemma fc_name_inj (i j : nat) :
  MLPPolicyPytorch.fc_name i = MLPPolicyPytorch.fc_name j → i = j.
Proof.
  unfold MLPPolicyPytorch.fc_name. simpl. intros [= E]. by apply (inj pretty).
Qed.

Lemma fc_name_not_fc_in (i : nat) : MLPPolicyPytorch.fc_name i ≠ "fc_in".
Proof.
  unfold MLPPolicyPytorch.fc_name. simpl. intros [= E].
  by apply (pretty_nat_head "i" i "n" digit_is_not_i).
Qed.

Lemma fc_name_not_fc_out (i : nat) : MLPPolicyPytorch.fc_name i ≠ "fc_out".
Proof.
  unfold MLPPolicyPytorch.fc_name. simpl. intros [= E].
  by apply (pretty_nat_head "o" i "ut" digit_is_not_o).
Qed.

Section MLPFacts.
Context {L R : Type} {torch : TorchLinear L R}.

Implicit Types (ms : list (string * L)) (hs : list nat).

Lemma set_module_fresh (name : string) (layer : L) ms :
  name ∉ ms.*1 → MLPPolicyPytorch.set_module name layer ms = ms ++ [(name, layer)].
Proof.
  induction ms as [|[name' layer'] ms IH]; simpl; intros Hfresh; [done |].
  apply not_elem_of_cons in Hfresh as [Hne Hfresh].
  destruct (String.eqb_spec name name'); [done |]. by rewrite IH.
Qed.

Lemma get_module_lookup (name : string) (layer : L) ms (j : nat) :
  NoDup ms.*1 → ms !! j = Some (name, layer) →
  MLPPolicyPytorch.get_module name ms = Ret layer.
Proof.
  revert j. induction ms as [|[name' layer'] ms IH]; intros j Hnd Hj; [done |].
  simpl in *. apply NoDup_cons in Hnd as [Hfresh Hnd].
  destruct j as [|j]; simpl in Hj.
  - injection Hj as -> ->. by rewrite String.eqb_refl.
  - destruct (String.eqb_spec name name') as [->|_]; [| by eapply IH].
    exfalso. apply Hfresh. apply list_elem_of_fmap.
    exists (name', layer). split; [done |]. by eapply list_elem_of_lookup_2.
Qed.

(** What the [for] loop of the constructor registers, from index [a] on. *)
Lemma add_hidden_loop hs (n : nat) :
  ∀ (a : nat) (self self' : MLPPolicyPytorch.t L),
    for_range (seq a n) (MLPPolicyPytorch.add_hidden hs) self = Ret self' →
    (∀ j, (a ≤ j)%nat → MLPPolicyPytorch.fc_name j ∉ (MLPPolicyPytorch.modules self).*1) →
    MLPPolicyPytorch.fc_hidden_name self'
      = MLPPolicyPytorch.fc_hidden_name self ++ (MLPPolicyPytorch.fc_name <$> seq a n) ∧
    ∃ ls, length ls = n ∧
      MLPPolicyPytorch.modules self'
        = MLPPolicyPytorch.modules self ++ zip (MLPPolicyPytorch.fc_name <$> seq a n) ls ∧
      ∀ j layer, ls !! j = Some layer →
        ∃ x y, hs !! (a + j)%nat = Some x ∧ hs !! S (a + j) = Some y ∧
               linear_new x y = Ret layer.
Proof.
  induction n as [|n IH]; intros a self self' E Hfresh; simpl in E.
  - injection E as <-. rewrite !app_nil_r. split; [done |].
    exists []. split_and!; [done | by rewrite app_nil_r |].
    intros j layer Hj. by rewrite lookup_nil in Hj.
  - bind_inv E as self1 E1.
    unfold MLPPolicyPytorch.add_hidden in E1.
    bind_inv E1 as x Hx. bind_inv E1 as y Hy. bind_inv E1 as layer Hnew.
    apply index_Ret in Hx, Hy. injection E1 as <-.
    apply IH in E as (Hnames & ls & Hlen & Hmods & Hls); simpl in *.
    + rewrite set_module_fresh in Hmods by (apply Hfresh; lia).
      split; [by rewrite Hnames, <- app_assoc |].
      exists (layer :: ls). split_and!; [simpl; lia | by rewrite Hmods, <- app_assoc |].
      intros [|j] layer' Hj; simpl in Hj.
      * injection Hj as <-. exists x, y. by rewrite Nat.add_0_r.
      * destruct (Hls _ _ Hj) as (x' & y' & Hx' & Hy' & Hnew').
        exists x', y'. by rewrite <- !Nat.add_succ_comm.
    + intros j Hj. rewrite set_module_fresh by (apply Hfresh; lia).
      rewrite fmap_app. simpl. intros Hin.
      apply elem_of_app in Hin as [Hin | Hin]; [by apply (Hfresh j); [lia |] |].
      apply list_elem_of_singleton in Hin. apply fc_name_inj in Hin. lia.
Qed.

(** The widths of consecutive layers, read off the list of widths. *)
Lemma chain_pairs (out : nat) hs :
  ∀ (fs : list (nat * nat)) (hl : nat),
    length fs = (length hs - 1)%nat →
    (∀ j f, fs !! j = Some f → hs !! j = Some f.1 ∧ hs !! S j = Some f.2) →
    last hs = Some hl →
    fs ++ [(hl, out)] = zip (hs ++ [out]) (tail (hs ++ [out])).
Proof.
  induction hs as [|h hs IH]; intros fs hl Hlen Hfs Hlast; [done |].
  destruct hs as [|h' hs].
  - destruct fs; [| done]. simpl in *. by injection Hlast as ->.
  - destruct fs as [|f fs]; [done |].
    destruct (Hfs 0%nat f eq_refl) as [Hf1 Hf2]. simpl in Hf1, Hf2.
    injection Hf1 as Hf1. injection Hf2 as Hf2.
    destruct f as [f1 f2]. simpl in Hf1, Hf2. subst f1 f2.
    change ((h, h') :: (fs ++ [(hl, out)])
            = (h, h') :: zip ((h' :: hs) ++ [out]) (tail ((h' :: hs) ++ [out]))).
    f_equal. apply IH.
    + simpl in *. lia.
    + intros j f Hj. apply (Hfs (S j) f Hj).
    + by rewrite last_cons_cons in Hlast.
Qed.

(** What the constructor built when it returns. *)
Lemma init_inv (in_dim : nat) hs (out_dim : nat) (m : MLPPolicyPytorch.t L) :
  MLPPolicyPytorch.init in_dim hs out_dim = Ret m →
  ∃ fc_in ls fc_out h0 hl,
    hs !! 0%nat = Some h0 ∧ last hs = Some hl ∧
    linear_new in_dim h0 = Ret fc_in ∧ linear_new hl out_dim = Ret fc_out ∧
    length ls = (length hs - 1)%nat ∧
    (∀ j layer, ls !! j = Some layer →
       ∃ x y, hs !! j = Some x ∧ hs !! S j = Some y ∧ linear_new x y = Ret layer) ∧
    MLPPolicyPytorch.fc_hidden_name m
      = MLPPolicyPytorch.fc_name <$> seq 0 (length hs - 1) ∧
    MLPPolicyPytorch.modules m
      = ("fc_in", fc_in)
        :: zip (MLPPolicyPytorch.fc_name <$> seq 0 (length hs - 1)) ls
        ++ [("fc_out", fc_out)].
Proof.
  unfold MLPPolicyPytorch.init. intros E.
  bind_inv E as h0 Hh0. bind_inv E as fc_in Hin. bind_inv E as self Hloop.
  bind_inv E as hl Hhl. bind_inv E as fc_out Hout. injection E as <-.
  apply index_Ret in Hh0, Hhl.
  apply add_hidden_loop in Hloop as (Hnames & ls & Hlen & Hmods & Hls); simpl in *.
  2:{ intros j _ Hin'. apply list_elem_of_singleton in Hin'.
      by apply fc_name_not_fc_in in Hin'. }
  exists fc_in, ls, fc_out, h0, hl. split_and!; try done.
  - by rewrite last_lookup, <- Nat.sub_1_r.
  - rewrite Hmods. rewrite set_module_fresh; [done |].
    simpl. intros Hin'. apply elem_of_cons in Hin' as [Hin' | Hin']; [done |].
    apply list_elem_of_fmap in Hin' as ([name layer] & Hfst & Hin').
    apply elem_of_zip_l in Hin'. apply list_elem_of_fmap in Hin' as (j & Hname & _).
    simpl in Hfst. subst name. symmetry in Hname. by apply fc_name_not_fc_out in Hname.
Qed.

Section TorchShapes.
(** What torch promises of [nn.Linear]: a layer has the widths it was built
    with, maps a vector of its input width to one of its output width, and
    [F.relu] keeps the length of a vector. *)
Hypothesis linear_new_features : ∀ x y layer,
  linear_new x y = Ret layer → in_features layer = x ∧ out_features layer = y.
Hypothesis linear_apply_length : ∀ layer (x : list R),
  length x = in_features layer →
  ∃ y, linear_apply layer x = Ret y ∧ length y = out_features layer.
Hypothesis relu_length : ∀ x : list R, length (relu x) = length x.

Lemma mlp_features (in_dim : nat) hs (out_dim : nat) (m : MLPPolicyPytorch.t L) :
  MLPPolicyPytorch.init in_dim hs out_dim = Ret m →
  hs ≠ [] ∧
  (MLPPolicyPytorch.modules m).*1
    = "fc_in" :: (MLPPolicyPytorch.fc_name <$> seq 0 (length hs - 1)) ++ ["fc_out"] ∧
  (λ layer, (in_features layer, out_features layer)) <$> (MLPPolicyPytorch.modules m).*2
    = zip (in_dim :: hs ++ [out_dim]) (hs ++ [out_dim]).
Proof.
  intros E.
  destruct (init_inv _ _ _ _ E)
    as (fc_in & ls & fc_out & h0 & hl & Hh0 & Hhl & Hin & Hout & Hlen & Hls & _ & Hmods).
  assert (length (MLPPolicyPytorch.fc_name <$> seq 0 (length hs - 1)) = length ls)
    as Hlen' by by rewrite length_fmap, length_seq.
  split_and!.
  - by intros ->.
  - rewrite Hmods. rewrite fmap_cons, fmap_app, fst_zip by lia. done.
  - rewrite Hmods. rewrite fmap_cons, fmap_app, snd_zip by lia.
    rewrite fmap_cons, fmap_app. simpl.
    destruct (linear_new_features _ _ _ Hin) as [-> ->].
    destruct (linear_new_features _ _ _ Hout) as [-> ->].
    destruct hs as [|h hs']; [done |]. injection Hh0 as ->.
    change (zip (in_dim :: (h0 :: hs') ++ [out_dim]) ((h0 :: hs') ++ [out_dim]))
      with ((in_dim, h0)
            :: zip ((h0 :: hs') ++ [out_dim]) (tail ((h0 :: hs') ++ [out_dim]))).
    f_equal. apply chain_pairs; [by rewrite length_fmap | | done].
    intros j f Hj. apply list_lookup_fmap_Some in Hj as (layer & -> & Hj).
    destruct (Hls _ _ Hj) as (x & y & Hx & Hy & Hnew).
    destruct (linear_new_features _ _ _ Hnew) as [-> ->]. done.
Qed.

(** X12. The constructor needs at least one hidden width: on an empty
    [hidden_dims] it raises [IndexError].  On [hidden_dims] of n widths it
    registers n + 1 linear layers, [fc_in], [fc_0], ..., [fc_out] in this
    order, chained through the widths: each layer takes the width the one
    before it gives, from [in_dim] to [out_dim]. *)
Theorem mlp_layers_chain_through_the_widths (in_dim : nat) hs (out_dim : nat) :
  MLPPolicyPytorch.init (L := L) in_dim [] out_dim = Raise IndexError ∧
  ∀ m : MLPPolicyPytorch.t L,
    MLPPolicyPytorch.init in_dim hs out_dim = Ret m →
    hs ≠ [] ∧
    MLPPolicyPytorch.fc_hidden_name m
      = MLPPolicyPytorch.fc_name <$> seq 0 (length hs - 1) ∧
    (MLPPolicyPytorch.modules m).*1
      = "fc_in" :: (MLPPolicyPytorch.fc_name <$> seq 0 (length hs - 1)) ++ ["fc_out"] ∧
    (λ layer, (in_features layer, out_features layer)) <$> (MLPPolicyPytorch.modules m).*2
      = zip (in_dim :: hs ++ [out_dim]) (hs ++ [out_dim]).
Proof.
  split; [done |]. intros m E.
  destruct (mlp_features _ _ _ _ E) as (Hne & Hnames & Hfeats).
  destruct (init_inv _ _ _ _ E) as (? & ? & ? & ? & ? & _ & _ & _ & _ & _ & _ & Hhidden & _).
  done.
Qed.

Lemma mlp_names_NoDup (n : nat) :
  NoDup ("fc_in" :: (MLPPolicyPytorch.fc_name <$> seq 0 n) ++ ["fc_out"]).
Proof.
  apply NoDup_cons. split.
  - intros Hin. apply elem_of_app in Hin as [Hin | Hin].
    + apply list_elem_of_fmap in Hin as (j & Hname & _).
      symmetry in Hname. by apply fc_name_not_fc_in in Hname.
    + by apply list_elem_of_singleton in Hin.
  - apply NoDup_app. split_and!.
    + apply (@NoDup_fmap_2 _ _ MLPPolicyPytorch.fc_name fc_name_inj), NoDup_seq.
    + intros name Hin Hout. apply list_elem_of_singleton in Hout as ->.
      apply list_elem_of_fmap in Hin as (j & Hname & _).
      symmetry in Hname. by apply fc_name_not_fc_out in Hname.
    + apply NoDup_singleton.
Qed.

(** The hidden layers from [fc_a] on, run one after the other. *)
Lemma forward_hidden (m : MLPPolicyPytorch.t L) hs (ls : list L) (k : nat) :
  (∀ j layer, ls !! j = Some layer →
     MLPPolicyPytorch.get_module (MLPPolicyPytorch.fc_name j) (MLPPolicyPytorch.modules m)
       = Ret layer ∧
     ∃ x y, hs !! j = Some x ∧ hs !! S j = Some y ∧ linear_new x y = Ret layer) →
  ∀ (a : nat) (x : list R) (hx : nat),
    (a + k = length ls)%nat → hs !! a = Some hx → length x = hx →
    ∃ y hy,
      for_in (MLPPolicyPytorch.fc_name <$> seq a k)
        (λ name x, layer ← MLPPolicyPytorch.get_module name (MLPPolicyPytorch.modules m);
                   y ← linear_apply layer x;
                   Ret (relu y)) x = Ret y ∧
      hs !! (a + k)%nat = Some hy ∧ length y = hy.
Proof.
  intros Hls. induction k as [|k IH]; intros a x hx Hak Ha Hx; simpl.
  - exists x, hx. by rewrite Nat.add_0_r.
  - destruct (lookup_lt_is_Some_2 ls a ltac:(lia)) as [layer Hlayer].
    destruct (Hls _ _ Hlayer) as (Hget & xa & ya & Hxa & Hya & Hnew).
    destruct (linear_new_features _ _ _ Hnew) as [Hfin Hfout].
    destruct (linear_apply_length layer x) as (y1 & Happly & Hy1); [congruence |].
    rewrite Hget. simpl. rewrite Happly. simpl.
    destruct (IH (S a) (relu y1) ya) as (y & hy & Hrest & Hhy & Hy); [lia | done | |].
    { rewrite relu_length. congruence. }
    exists y, hy. rewrite <- Nat.add_succ_comm. done.
Qed.

(** X13. Given what torch promises of [nn.Linear] and [F.relu], the network
    the constructor built maps every vector of [in_dim] entries to a vector
    of [out_dim] entries: no layer is handed a vector of the wrong width. *)
Theorem mlp_forward_maps_in_dim_to_out_dim (in_dim : nat) hs (out_dim : nat)
    (m : MLPPolicyPytorch.t L) (x : list R) :
  MLPPolicyPytorch.init in_dim hs out_dim = Ret m →
  length x = in_dim →
  ∃ y, MLPPolicyPytorch.forward m x = Ret y ∧ length y = out_dim.
Proof.
  intros E Hx.
  destruct (init_inv _ _ _ _ E)
    as (fc_in & ls & fc_out & h0 & hl & Hh0 & Hhl & Hin & Hout & Hlen & Hls
        & Hhidden & Hmods).
  assert (length (MLPPolicyPytorch.fc_name <$> seq 0 (length hs - 1)) = length ls)
    as Hlen' by by rewrite length_fmap, length_seq.
  assert (NoDup (MLPPolicyPytorch.modules m).*1) as Hnd.
  { rewrite Hmods, fmap_cons, fmap_app, fst_zip by lia. apply mlp_names_NoDup. }
  assert (MLPPolicyPytorch.get_module "fc_in" (MLPPolicyPytorch.modules m) = Ret fc_in)
    as Hget_in by by rewrite Hmods.
  assert (MLPPolicyPytorch.get_module "fc_out" (MLPPolicyPytorch.modules m) = Ret fc_out)
    as Hget_out.
  { apply (get_module_lookup _ _ _ (S (length ls)) Hnd).
    rewrite Hmods. simpl. rewrite lookup_app_r by (rewrite length_zip; lia).
    rewrite length_zip, Hlen', Nat.min_id, Nat.sub_diag. done. }
  assert (∀ j layer, ls !! j = Some layer →
            MLPPolicyPytorch.get_module (MLPPolicyPytorch.fc_name j)
              (MLPPolicyPytorch.modules m) = Ret layer) as Hget.
  { intros j layer Hj. apply (get_module_lookup _ _ _ (S j) Hnd).
    rewrite Hmods. simpl.
    pose proof (lookup_lt_Some _ _ _ Hj) as Hlt.
    rewrite lookup_app_l by (rewrite length_zip; lia).
    apply lookup_zip_with_Some. exists (MLPPolicyPytorch.fc_name j), layer.
    split_and!; [done | | done].
    rewrite list_lookup_fmap, lookup_seq_lt by lia. done. }
  unfold MLPPolicyPytorch.forward. rewrite Hget_in. simpl.
  destruct (linear_new_features _ _ _ Hin) as [Hin_in Hin_out].
  destruct (linear_new_features _ _ _ Hout) as [Hout_in Hout_out].
  destruct (linear_apply_length fc_in x) as (y0 & Happly0 & Hy0); [congruence |].
  rewrite Happly0. simpl. rewrite Hhidden.
  destruct (forward_hidden m hs ls (length hs - 1)
              ltac:(intros j layer Hj; split; [by apply Hget | by apply Hls])
              0%nat (relu y0) h0) as (y1 & hy & Hloop & Hhy & Hy1); [lia | done | |].
  { rewrite relu_length. congruence. }
  rewrite Hloop. simpl. rewrite Hget_out. simpl.
  assert (hy = hl) as ->.
  { rewrite last_lookup, <- Nat.sub_1_r in Hhl. simpl in Hhy. congruence. }
  destruct (linear_apply_length fc_out y1) as (y & Happly & Hy); [congruence |].
  exists y. split; [done | congruence].
Qed.

(** The parameters of layers whose widths chain through [dims]. *)
Lemma chained_parameter_count (ms : list (string * L)) :
  ∀ dims,
    (λ layer, (in_features layer, out_features layer)) <$> ms.*2 = zip dims (tail dims) →
    sum_list (PytorchPolicy.np_prod
                <$> (mbind (M := list)
                       (λ '(_, layer),
                          [[out_features layer; in_features layer]; [out_features layer]])
                       ms))
    = dense_count dims.
Proof.
  induction ms as [|[name layer] ms IH]; intros dims Hfeats.
  - destruct dims as [|a [|b dims]]; done.
  - destruct dims as [|a [|b dims]]; [done | done |].
    simpl in Hfeats. injection Hfeats as Hin Hout Hrest.
    specialize (IH (b :: dims) Hrest).
    change (dense_count (a :: b :: dims)) with (b * a + b + dense_count (b :: dims))%nat.
    rewrite <- IH. subst a b.
    assert (∀ l, sum_list (PytorchPolicy.np_prod
                             <$> ([[out_features layer; in_features layer];
                                   [out_features layer]] ++ l))
                 = (out_features layer * in_features layer + out_features layer
                    + sum_list (PytorchPolicy.np_prod <$> l))%nat) as Hhead
      by (intros l; rewrite fmap_app, sum_list_with_app;
          generalize (sum_list (PytorchPolicy.np_prod <$> l)); intros rest;
          simpl; lia).
    exact (Hhead _).
Qed.

(** X14. The network the constructor built has, for every pair of
    consecutive widths a, b in [in_dim, *hidden_dims, out_dim], b * a weights
    and b biases, and nothing else: with the one hidden layer of 100 units
    that [main] asks for, 100 * in_dim + 100 + out_dim * 100 + out_dim
    parameters. *)
Theorem mlp_parameter_count (in_dim : nat) hs (out_dim : nat)
    (m : MLPPolicyPytorch.t L) :
  MLPPolicyPytorch.init in_dim hs out_dim = Ret m →
  sum_list (PytorchPolicy.np_prod <$> MLPPolicyPytorch.parameters m)
    = dense_count (in_dim :: hs ++ [out_dim]) ∧
  (hs = [100%nat] →
   sum_list (PytorchPolicy.np_prod <$> MLPPolicyPytorch.parameters m)
     = (100 * in_dim + 100 + out_dim * 100 + out_dim)%nat).
Proof.
  intros E.
  destruct (mlp_features _ _ _ _ E) as (_ & _ & Hfeats).
  assert (sum_list (PytorchPolicy.np_prod <$> MLPPolicyPytorch.parameters m)
          = dense_count (in_dim :: hs ++ [out_dim])) as Hcount.
  { unfold MLPPolicyPytorch.parameters. by apply chained_parameter_count. }
  split; [done |]. intros ->. rewrite Hcount. simpl. lia.
Qed.

End TorchShapes.

End MLPFacts.

(** ** The further facts on the small world *)

Section MoreOnTheBench.
Import Bench.

Example second_pass : CMAES.rollout_step 2 population0 (Some count_calls) loop1 = Ret loop2.
Proof. reflexivity. Qed.

Example answers_of_first_generation :
  responses 2 2 population0 (Some count_calls) loop0
  = Ret [([10; 20], [true; false]); ([30; 10], [false; true])].
Proof. reflexivity. Qed.

Example returns_of_first_generation :
  return_until_done 0 0 [([10; 20], [true; false]); ([30; 10], [false; true])] = 0 ∧
  return_until_done 1 0 [([10; 20], [true; false]); ([30; 10], [false; true])] = 20.
Proof. split; reflexivity. Qed.

(** X3 on the small world: the fitness told after the first generation is,
    for each of the two candidates, minus what its instance earned before it
    reported done. *)
Lemma first_generation_fitness_is_negated_return :
  ∃ es1 population (s0 s : CMAES.loop (PytorchPolicy.t (list Z)) Z Z (list nat) nat)
      m answers,
    CMAES.sampling ts0 = Ret (es1, population, s0) ∧
    steps m (CMAES.n_population (CMAES.ts_self ts0)) population (Some count_calls) s0
      = Ret s ∧
    responses m (CMAES.n_population (CMAES.ts_self ts0)) population (Some count_calls) s0
      = Ret answers ∧
    length answers = m ∧
    es_tell es1 population (np_neg (CMAES.l_r s)) = Ret (CMAES.es (CMAES.ts_self ts1)) ∧
    ∀ k, (k < Z.to_nat (CMAES.n_population (CMAES.ts_self ts0)))%nat →
      np_neg (CMAES.l_r s) !! k = Some (ropp (return_until_done k rzero answers)).
Proof.
  apply (fitness_is_negated_return_until_done 3 (Some count_calls) ts0 ts1).
  reflexivity.
Defined.

(** X4 on the small world: on the first pass both instances act, each on
    its own candidate and observation. *)
Lemma first_pass_actions_follow_candidates :
  ∃ actions env obs reward new_done,
    env_step (CMAES.l_env loop0) actions = Ret (env, (obs, reward, new_done)) ∧
    length actions = Z.to_nat 2 ∧
    ∀ k, (k < Z.to_nat 2)%nat →
      (CMAES.l_done loop0 !! k = Some true ∧ actions !! k = Some None) ∨
      (CMAES.l_done loop0 !! k = Some false ∧
       ∃ o param p0 pk a,
         CMAES.l_obs loop0 !! k = Some o ∧ population0 !! k = Some param ∧
         Policy.setParam p0 param = Ret pk ∧ Policy.getAction pk o = Ret a ∧
         actions !! k = Some (Some a)).
Proof.
  apply (each_instance_acts_on_its_own_candidate 2 population0 (Some count_calls)
           loop0 loop1).
  reflexivity.
Defined.

(** X5 on the small world: the first generation's rollout takes two passes,
    and before each of them an instance was not done. *)
Lemma first_rollout_takes_just_two_passes :
  ∃ m, steps m 2 population0 (Some count_calls) loop0 = Ret loop2 ∧
    np_all (CMAES.l_done loop2) = true ∧
    ∀ j s_j, (j < m)%nat → steps j 2 population0 (Some count_calls) loop0 = Ret s_j →
      np_all (CMAES.l_done s_j) = false.
Proof.
  apply (rollout_stops_at_first_all_done 2 population0 (Some count_calls) 3 loop0 loop2).
  reflexivity.
Defined.

Example trainer0_is_built :
  CMAES.init (Obs := Z) 2 policy0 (PyInt 0) (PyFloat 0.2) false = Ret trainer0.
Proof. reflexivity. Qed.

Example save_needs_a_directory :
  CMAES.save (CMAES.ts_self ts1) "/nonexistent_dir/x.pkl" (∅ : gmap string trainer_t)
    = Raise FileNotFoundError ∧
  CMAES.save (CMAES.ts_self ts1) "" (∅ : gmap string trainer_t)
    = Raise FileNotFoundError.
Proof. split; reflexivity. Qed.

(** C4 on the small world: the trainer built with two candidates and trained
    for one generation is saved under [./checkpoint.pkl]; loaded under
    [checkpoint.pkl], the same file, it is that trainer, and its next
    generation computes the same fitness vector either way. *)
Lemma load_of_save_after_first_generation :
  load (Obs := Z) "checkpoint.pkl" (<["checkpoint.pkl" := CMAES.ts_self ts1]> ∅)
    = (model ← CMAES.init (Obs := Z) (CMAES.n_population (CMAES.ts_self ts1))
                 (CMAES.policy (CMAES.ts_self ts1)) (CMAES.init_mu (CMAES.ts_self ts1))
                 (CMAES.init_sigma (CMAES.ts_self ts1)) CMAES.default_continuous_actions;
       Ret (set_dict model (CMAES.ts_self ts1))) ∧
  load (Obs := Z) "checkpoint.pkl" (<["checkpoint.pkl" := CMAES.ts_self ts1]> ∅)
    = Ret (CMAES.ts_self ts1) ∧
  ∀ loaded,
    load (Obs := Z) "checkpoint.pkl" (<["checkpoint.pkl" := CMAES.ts_self ts1]> ∅)
      = Ret loaded →
    ∀ (fuel : nat)
      (callback : option (CMAES.callback_t (PytorchPolicy.t (list Z)) Z (action Z) Z
                            (list nat) nat))
      (env : list nat) (cb : nat) (step : Z),
      generation_fitness fuel callback
        {| CMAES.ts_self := loaded; CMAES.ts_env := env; CMAES.ts_cb := cb;
           CMAES.ts_step := step |}
      = generation_fitness fuel callback
          {| CMAES.ts_self := CMAES.ts_self ts1; CMAES.ts_env := env; CMAES.ts_cb := cb;
             CMAES.ts_step := step |}.
Proof.
  assert (CMAES.save (CMAES.ts_self ts1) "./checkpoint.pkl" ∅
          = Ret (<["checkpoint.pkl" := CMAES.ts_self ts1]> ∅)) as Hsave by reflexivity.
  destruct (load_of_save_is_the_saved_trainer (Obs := Z) (Env := list nat) (CB := nat)
              (pickle := identity_pickle) (CMAES.ts_self ts1)
              "./checkpoint.pkl" "checkpoint.pkl" ∅
              (<["checkpoint.pkl" := CMAES.ts_self ts1]> ∅)
              (λ d blob E, eq_sym E) Hsave eq_refl) as [Hruns Hloaded].
  split; [exact Hruns |]. apply Hloaded.
  apply (trained_train 3 trainer0 [1; 2]%nat (Some count_calls) 0%nat 1 ts1).
  - exact (trained_init 2 policy0 (PyInt 0) (PyFloat 0.2) false trainer0 eq_refl).
  - reflexivity.
Defined.

(** X9 on the small world: with no candidate and a budget of one step,
    four rounds of fuel are not enough, and no number would be. *)
Lemma empty_trainer_never_returns :
  CMAES.train 4 empty_trainer [1; 2]%nat (Some count_calls) 0%nat 1 = None ∨
  ∃ e, CMAES.train 4 empty_trainer [1; 2]%nat (Some count_calls) 0%nat 1
       = Some (Raise e).
Proof.
  apply (train_without_candidates_never_returns 4 empty_trainer [1; 2]%nat
           (Some count_calls) 0%nat 1).
  - reflexivity.
  - lia.
Defined.

Example empty_trainer_runs_out_of_fuel :
  CMAES.train 4 empty_trainer [1; 2]%nat (Some count_calls) 0%nat 1 = None.
Proof. reflexivity. Qed.

Example main_without_population :
  main_setup (Obs := Z) (ES := nat * option (list Z))
    (<["num_population" := PyNum (PyInt 0)]> (with_defaults (customArguments []) args0))
  = Raise ZeroDivisionError.
Proof. vm_compute. reflexivity. Qed.

Lemma summing_linear_features (x y : nat) (layer : nat * nat) :
  linear_new x y = Ret layer → in_features layer = x ∧ out_features layer = y.
Proof. by intros [= <-]. Qed.

Lemma summing_linear_length (layer : nat * nat) (x : list Z) :
  length x = in_features layer →
  ∃ y, linear_apply layer x = Ret y ∧ length y = out_features layer.
Proof.
  simpl. intros Hlen. rewrite decide_True by done.
  eexists. split; [done |]. apply length_replicate.
Qed.

Lemma relu_keeps_length (x : list Z) : length (relu x) = length x.
Proof. simpl. apply length_fmap. Qed.

Example mlp_of_two_hidden_layers :
  (λ m, (MLPPolicyPytorch.fc_hidden_name m, MLPPolicyPytorch.modules m))
    <$> MLPPolicyPytorch.init (L := nat * nat) 3 [4; 2]%nat 5
  = Ret (["fc_0"], [("fc_in", (3, 4)); ("fc_0", (4, 2)); ("fc_out", (2, 5))]%nat).
Proof. vm_compute. reflexivity. Qed.

(** X12 on the small world: hidden widths 4 and 2 between 3 inputs and 5
    outputs. *)
Lemma mlp_three_four_two_five_chains :
  MLPPolicyPytorch.init (L := nat * nat) 3 [] 5 = Raise IndexError ∧
  ∀ m : MLPPolicyPytorch.t (nat * nat),
    MLPPolicyPytorch.init 3 [4; 2]%nat 5 = Ret m →
    [4; 2]%nat ≠ [] ∧
    MLPPolicyPytorch.fc_hidden_name m
      = MLPPolicyPytorch.fc_name <$> seq 0 (length [4; 2]%nat - 1) ∧
    (MLPPolicyPytorch.modules m).*1
      = "fc_in" :: (MLPPolicyPytorch.fc_name <$> seq 0 (length [4; 2]%nat - 1))
        ++ ["fc_out"] ∧
    (λ layer, (in_features layer, out_features layer)) <$> (MLPPolicyPytorch.modules m).*2
      = zip (3 :: [4; 2] ++ [5])%nat ([4; 2] ++ [5])%nat.
Proof.
  exact (mlp_layers_chain_through_the_widths summing_linear_features 3 [4; 2]%nat 5).
Defined.

(** X13 on the small world: that network turns three numbers into five. *)
Lemma mlp_three_four_two_five_forward :
  ∃ m : MLPPolicyPytorch.t (nat * nat),
    MLPPolicyPytorch.init 3 [4; 2]%nat 5 = Ret m ∧
    ∃ y, MLPPolicyPytorch.forward m [1; -2; 3] = Ret y ∧ length y = 5%nat.
Proof.
  eexists. split; [reflexivity |].
  apply (mlp_forward_maps_in_dim_to_out_dim summing_linear_features
           summing_linear_length relu_keeps_length 3 [4; 2]%nat 5).
  - reflexivity.
  - reflexivity.
Defined.

(** X14 on the small world: one hidden layer of 100 units between 3 inputs
    and 5 outputs has 905 parameters. *)
Lemma mlp_of_main_has_905_parameters :
  ∃ m : MLPPolicyPytorch.t (nat * nat),
    MLPPolicyPytorch.init 3 [100%nat] 5 = Ret m ∧
    sum_list (PytorchPolicy.np_prod <$> MLPPolicyPytorch.parameters m)
      = dense_count (3 :: [100] ++ [5])%nat ∧
    ([100%nat] = [100%nat] →
     sum_list (PytorchPolicy.np_prod <$> MLPPolicyPytorch.parameters m)
       = (100 * 3 + 100 + 5 * 100 + 5)%nat).
Proof.
  eexists. split; [reflexivity |].
  apply (mlp_parameter_count summing_linear_features 3 [100%nat] 5).
  reflexivity.
Defined.

End MoreOnTheBench.
